(** * SuperClaude skills: self-check validation, reflexion lookup and
    the session start hook

    A shallow embedding of the three TypeScript skills
    - self-check ([selfCheck] and its four question validators, the
      hallucination scanner and the report formatter),
    - reflexion ([createErrorSignature], [matchSignatures],
      [lookupSolution], the recording and reporting functions), and
    - session start hook (settings, init script, validation),
    followed by the properties their specification states about them.

    JavaScript strings are sequences of UTF-16 code units and are modelled
    as [list N].  The host functions whose result is not determined by
    the repository, [String.prototype.toLowerCase] (the Unicode case
    mapping), [JSON.parse], [JSON.stringify], the clock and the
    conversion of a value to a string, are section variables: everything
    proved in a section holds whatever these functions compute.

    A value typed by an interface is a record; a value that
    [JSON.parse] returns is taken as it is at run time, since the cast
    that follows the call checks nothing, and an operation that throws
    on it is modelled as throwing.  The threshold of the similarity test
    is a rational and the quotient of the two set sizes is exact: the
    theorems on similarity use that quotient only through what rounding
    to a double keeps (its order, the value 1 of a size divided by
    itself, the value 0 when no word is shared); the lemmas on the exact
    quotient serve their proofs.  A timeout is any number, NaN
    and the infinities included. *)

From Stdlib Require Import List NArith QArith String Ascii Decimal Lia.
From stdpp Require Import base option list gmap.

Open Scope N_scope.

(** ** JavaScript strings *)

Abbreviation jsstring := (list N).

Module JS.

(** *** Source literals

    A literal of the source is written here as a Rocq string, that is as
    its UTF-8 bytes, and [lit] turns it into the code units the
    JavaScript engine holds. *)

Fixpoint bytes (s : string) : list N :=
  match s with
  | EmptyString => []
  | String a s' => N_of_ascii a :: bytes s'
  end.

Fixpoint codepoints (bs : list N) : list N :=
  match bs with
  | [] => []
  | b0 :: r0 =>
    if b0 <? 0x80 then b0 :: codepoints r0
    else match r0 with
    | [] => []
    | b1 :: r1 =>
      if b0 <? 0xE0 then ((b0 - 0xC0) * 0x40 + (b1 - 0x80)) :: codepoints r1
      else match r1 with
      | [] => []
      | b2 :: r2 =>
        if b0 <? 0xF0
        then ((b0 - 0xE0) * 0x1000 + (b1 - 0x80) * 0x40 + (b2 - 0x80))
               :: codepoints r2
        else match r2 with
        | [] => []
        | b3 :: r3 =>
          ((b0 - 0xF0) * 0x40000 + (b1 - 0x80) * 0x1000
             + (b2 - 0x80) * 0x40 + (b3 - 0x80)) :: codepoints r3
        end
      end
    end
  end.

Definition units (cp : N) : list N :=
  if cp <? 0x10000 then [cp]
  else [0xD800 + (cp - 0x10000) / 0x400; 0xDC00 + (cp - 0x10000) mod 0x400].

Definition lit (s : string) : jsstring := flat_map units (codepoints (bytes s)).

(** *** Primitives *)

(** [s === ""]. *)
Definition isEmpty (s : jsstring) : bool :=
  match s with [] => true | _ :: _ => false end.

(** Truthiness of an optional string: [undefined] and [""] are falsy. *)
Definition truthy (o : option jsstring) : bool :=
  match o with Some (_ :: _) => true | _ => false end.

(** The code units matched by [\s] and stripped by [trim]: ECMAScript's
    WhiteSpace and LineTerminator. *)
Definition isWhiteSpace (c : N) : bool :=
  ((0x09 <=? c) && (c <=? 0x0D)) || (c =? 0x20) || (c =? 0xA0)
  || (c =? 0x1680) || ((0x2000 <=? c) && (c <=? 0x200A))
  || (c =? 0x2028) || (c =? 0x2029) || (c =? 0x202F) || (c =? 0x205F)
  || (c =? 0x3000) || (c =? 0xFEFF).

(** [\d] (no unicode flag needed: ASCII digits only). *)
Definition isDigit (c : N) : bool := (0x30 <=? c) && (c <=? 0x39).

Fixpoint trimStart (s : jsstring) : jsstring :=
  match s with
  | c :: s' => if isWhiteSpace c then trimStart s' else s
  | [] => []
  end.

Definition trimEnd (s : jsstring) : jsstring := rev (trimStart (rev s)).

Definition trim (s : jsstring) : jsstring := trimEnd (trimStart s).

Fixpoint startsWith (s p : jsstring) : bool :=
  match p, s with
  | [], _ => true
  | _ :: _, [] => false
  | a :: p', b :: s' => (a =? b) && startsWith s' p'
  end.

(** [s.includes(w)]. *)
Fixpoint includes (s w : jsstring) : bool :=
  startsWith s w
  || match s with [] => false | _ :: s' => includes s' w end.

(** [xs.join(sep)] on an array of strings. *)
Fixpoint join (sep : jsstring) (xs : list jsstring) : jsstring :=
  match xs with
  | [] => []
  | [x] => x
  | x :: xs' => x ++ sep ++ join sep xs'
  end.

(** [s.slice(0, n)]. *)
Definition slice0 (n : nat) (s : jsstring) : jsstring := take n s.

(** [s.split(/\s+/)]: the pieces between the maximal runs of white space,
    the empty pieces at both ends included. *)
Fixpoint splitWs_go (inSep : bool) (cur : jsstring) (s : jsstring)
  : list jsstring :=
  match s with
  | [] => [rev cur]
  | c :: s' =>
    if isWhiteSpace c
    then (if inSep then splitWs_go true [] s'
          else rev cur :: splitWs_go true [] s')
    else splitWs_go false (c :: cur) s'
  end.

Definition splitWs (s : jsstring) : list jsstring := splitWs_go false [] s.

(** [s.replace(/\d+/g, r)]: every maximal run of digits becomes [r]. *)
Fixpoint replaceDigits_go (inRun : bool) (r : jsstring) (s : jsstring)
  : jsstring :=
  match s with
  | [] => []
  | c :: s' =>
    if isDigit c
    then (if inRun then replaceDigits_go true r s'
          else r ++ replaceDigits_go true r s')
    else c :: replaceDigits_go false r s'
  end.

Definition replaceDigits (r : jsstring) (s : jsstring) : jsstring :=
  replaceDigits_go false r s.

(** Template-literal rendering of a non-negative integer (an array
    length): its decimal digits. *)
Fixpoint digits (d : Decimal.uint) : jsstring :=
  match d with
  | Nil => []
  | D0 d' => 0x30 :: digits d'
  | D1 d' => 0x31 :: digits d'
  | D2 d' => 0x32 :: digits d'
  | D3 d' => 0x33 :: digits d'
  | D4 d' => 0x34 :: digits d'
  | D5 d' => 0x35 :: digits d'
  | D6 d' => 0x36 :: digits d'
  | D7 d' => 0x37 :: digits d'
  | D8 d' => 0x38 :: digits d'
  | D9 d' => 0x39 :: digits d'
  end.

Definition numberToString (n : nat) : jsstring := digits (Nat.to_uint n).

(** [s.split("\n")] *)
Fixpoint splitOn_go (sep : N) (cur : jsstring) (s : jsstring)
  : list jsstring :=
  match s with
  | [] => [rev cur]
  | c :: s' =>
    if c =? sep then rev cur :: splitOn_go sep [] s'
    else splitOn_go sep (c :: cur) s'
  end.

Definition lines (s : jsstring) : list jsstring := splitOn_go 0x0A [] s.

(** [arr.push(x)] *)
Definition push (arr : list jsstring) (x : jsstring) : list jsstring :=
  arr ++ [x].

(** ASCII case folding: the instance of [toLowerCase] used to run the
    embedding on inputs whose letters are ASCII. *)
Definition asciiLower (s : jsstring) : jsstring :=
  map (fun c => if (0x41 <=? c) && (c <=? 0x5A) then c + 0x20 else c) s.

(** *** Numbers

    A number is a double: a finite value, which is a rational, one of
    the two infinities, or NaN.  Comparisons are exact on doubles, so a
    finite value is taken among all rationals. *)

Inductive Number :=
| Finite (q : Q)
| PosInfinity
| NegInfinity
| NaN.

Coercion Finite : Q >-> Number.

(** [a <= b]: false as soon as one side is NaN. *)
Definition Number_le (a b : Number) : bool :=
  match a, b with
  | NaN, _ | _, NaN => false
  | Finite x, Finite y => Qle_bool x y
  | NegInfinity, _ => true
  | _, PosInfinity => true
  | _, _ => false
  end.

(** [a > b]: false as soon as one side is NaN. *)
Definition Number_gt (a b : Number) : bool :=
  match a, b with
  | NaN, _ | _, NaN => false
  | Finite x, Finite y => negb (Qle_bool x y)
  | PosInfinity, PosInfinity => false
  | PosInfinity, _ => true
  | NegInfinity, _ => false
  | Finite _, NegInfinity => true
  | Finite _, PosInfinity => false
  end.

(** *** Values and exceptions

    The values [JSON.parse] returns.  An object is given by its own
    properties: [props k] is the value of the property named [k], if the
    object has one. *)

Unset Elimination Schemes.

Inductive Value :=
| VNull
| VBoolean (b : bool)
| VNumber (n : Number)
| VString (s : jsstring)
| VArray (items : list Value)
| VObject (props : jsstring -> option Value).

Set Elimination Schemes.

(** The outcome of an evaluation that can throw a TypeError. *)
Inductive Completion (A : Type) : Type :=
| Normal (a : A)
| Throw.

Arguments Normal {A} a.
Arguments Throw {A}.

Definition bind {A B : Type} (c : Completion A) (f : A -> Completion B)
  : Completion B :=
  match c with
  | Normal a => f a
  | Throw => Throw
  end.

Notation "x <- c1 ;; c2" := (bind c1 (fun x => c2))
  (at level 100, c1 at next level, right associativity).

(** The own property [k] of a value; [None] is [undefined]. *)
Definition own (v : Value) (k : jsstring) : option Value :=
  match v with
  | VObject props => props k
  | _ => None
  end.

(** [v.k], for a property name that no prototype defines (the field
    names of the interfaces below): reading from [null] throws, and a
    primitive or an array has no such property. *)
Definition Get (v : Value) (k : jsstring) : Completion (option Value) :=
  match v with
  | VNull => Throw
  | _ => Normal (own v k)
  end.

(** The truth value of [v] in a condition; [None] is [undefined]. *)
Definition ToBoolean (v : option Value) : bool :=
  match v with
  | None => false
  | Some VNull => false
  | Some (VBoolean b) => b
  | Some (VNumber (Finite q)) => negb (Qeq_bool q 0)
  | Some (VNumber NaN) => false
  | Some (VNumber _) => true
  | Some (VString s) => negb (isEmpty s)
  | Some (VArray _) => true
  | Some (VObject _) => true
  end.

End JS.

Import JS.

(** ** Self check (post-implementation validation) *)

Module SelfCheck.

Record Evidence := {
  testResults : option jsstring;
  codeChanges : option (list jsstring);
  validation : option jsstring
}.

Record Implementation := {
  testsPassed : bool;
  testOutput : option jsstring;
  requirements : option (list jsstring);
  requirementsMet : option (list jsstring);
  assumptions : option (list jsstring);
  assumptionsVerified : option (list jsstring);
  evidence : option Evidence;
  status : option jsstring;
  description : option jsstring;
  errors : option (list jsstring);
  warnings : option (list jsstring)
}.

Record ValidationResult := {
  passed : bool;
  issues : list jsstring;
  report : jsstring
}.

(** [if (q) arr.push(q)] for [q : string | null] *)
Definition pushIfTruthy (arr : list jsstring) (q : option jsstring)
  : list jsstring :=
  match q with
  | Some (c :: s) => push arr (c :: s)
  | _ => arr
  end.

(** [o === s] for an optional string [o] *)
Definition strictEq (o : option jsstring) (s : jsstring) : bool :=
  match o with
  | Some x => bool_decide (x = s)
  | None => false
  end.

Definition UNCERTAINTY_WORDS : list jsstring :=
  [lit "probably"; lit "maybe"; lit "should work"; lit "might work";
   lit "seems to"; lit "appears to"].

Definition passingIndicators : list jsstring :=
  [lit "passed"; lit "OK"; lit "✓"; lit "✅"; lit "success"].

(** The glyph every message of the four questions starts with. *)
Definition crossMark : N := 0x274C.

Definition msgTestsNotPassing : jsstring :=
  lit "❌ Tests not passing — implementation is incomplete".
Definition msgNoOutput : jsstring :=
  lit "❌ Tests claimed passing but no output provided (hallucination risk)".
Definition msgNoIndicator : jsstring :=
  lit "❌ Test output does not contain a passing indicator".

Section Validators.

(** [String.prototype.toLowerCase] *)
Variable toLowerCase : jsstring -> jsstring.

(** Question 1 *)
Definition checkTestsPassing (impl : Implementation) : option jsstring :=
  if negb (testsPassed impl) then Some msgTestsNotPassing
  else match testOutput impl with
  | None => Some msgNoOutput
  | Some out =>
    if isEmpty out || isEmpty (trim out) then Some msgNoOutput
    else
      let hasPassingIndicator :=
        existsb (fun ind => includes (toLowerCase out) (toLowerCase ind))
                passingIndicators in
      if negb hasPassingIndicator then Some msgNoIndicator
      else None
  end.

(** Question 2 *)
Definition checkRequirementsMet (impl : Implementation) : option jsstring :=
  let requirements := default [] (requirements impl) in
  if (length requirements =? 0)%nat then None
  else
    let metSet : gset jsstring :=
      list_to_set (default [] (requirementsMet impl)) in
    let unmet := filter (fun r => r ∉ metSet) requirements in
    if (length unmet =? 0)%nat then None
    else Some (lit "❌ Requirements not fully met: " ++ join (lit ", ") unmet).

(** Question 3 *)
Definition checkAssumptionsVerified (impl : Implementation)
  : option jsstring :=
  let assumptions := default [] (assumptions impl) in
  if (length assumptions =? 0)%nat then None
  else
    let verifiedSet : gset jsstring :=
      list_to_set (default [] (assumptionsVerified impl)) in
    let unverified := filter (fun a => a ∉ verifiedSet) assumptions in
    if (length unverified =? 0)%nat then None
    else Some (lit "❌ Unverified assumptions: " ++ join (lit ", ") unverified).

(** Question 4 *)

(** [impl.evidence ?? {}] falls back on the record without fields. *)
Definition emptyEvidence : Evidence :=
  {| testResults := None; codeChanges := None; validation := None |}.

(** [!text || text.trim() === ""] *)
Definition blankText (o : option jsstring) : bool :=
  negb (truthy o) || isEmpty (trim (default [] o)).

(** The local array [missing]. *)
Definition missingEvidence (impl : Implementation) : list jsstring :=
  let ev := default emptyEvidence (evidence impl) in
  let missing : list jsstring := [] in
  let missing :=
    if blankText (testResults ev) then push missing (lit "testResults")
    else missing in
  let missing :=
    if match codeChanges ev with
       | None => true
       | Some l => (length l =? 0)%nat
       end
    then push missing (lit "codeChanges") else missing in
  let missing :=
    if blankText (validation ev) then push missing (lit "validation")
    else missing in
  missing.

Definition checkEvidenceExists (impl : Implementation) : option jsstring :=
  let missing := missingEvidence impl in
  if (length missing =? 0)%nat then None
  else Some (lit "❌ Missing evidence: " ++ join (lit ", ") missing).

(** Hallucination red flags *)
Definition complete : jsstring := lit "complete".
Definition dquote : jsstring := [0x22].

Definition flagNoOutput : jsstring :=
  lit "Claims tests pass without showing output".
Definition flagNoEvidence : jsstring :=
  lit "Claims completion without any evidence".
Definition flagFailingTests : jsstring :=
  lit "Claims completion despite failing tests".
Definition flagIgnored : jsstring :=
  lit "Ignored errors or warnings while claiming completion".

Definition detectHallucinations (impl : Implementation) : list jsstring :=
  let flags : list jsstring := [] in
  let flags :=
    if testsPassed impl && negb (truthy (testOutput impl))
    then push flags flagNoOutput else flags in
  let flags :=
    if strictEq (status impl) complete
       && negb (bool_decide (is_Some (evidence impl)))
    then push flags flagNoEvidence else flags in
  let flags :=
    if strictEq (status impl) complete && negb (testsPassed impl)
    then push flags flagFailingTests else flags in
  let hasErrors := (0 <? length (default [] (errors impl)))%nat in
  let hasWarnings := (0 <? length (default [] (warnings impl)))%nat in
  let flags :=
    if (hasErrors || hasWarnings) && strictEq (status impl) complete
    then push flags flagIgnored else flags in
  let desc := toLowerCase (default [] (description impl)) in
  let uncertaintyFound :=
    filter (fun w => includes desc w = true) UNCERTAINTY_WORDS in
  let flags :=
    if (0 <? length uncertaintyFound)%nat
    then push flags
           (lit "Uncertainty language detected: " ++ dquote
              ++ join (dquote ++ lit ", " ++ dquote) uncertaintyFound
              ++ dquote)
    else flags in
  flags.

(** Reporting *)
Definition newline : jsstring := [0x0A].

Definition successLines : list jsstring :=
  [lit "📋 Self-Check Validation:";
   lit "   ✅ Tests passing";
   lit "   ✅ All requirements met";
   lit "   ✅ All assumptions verified";
   lit "   ✅ Evidence provided";
   [];
   lit "📊 Validation: PASSED";
   lit "✅ Implementation complete with evidence"].

Definition failureLines (issues : list jsstring) : list jsstring :=
  [lit "📋 Self-Check Validation:"]
  ++ map (fun i => lit "   " ++ i) issues
  ++ [[];
      lit "📊 Validation: FAILED";
      lit "❌ " ++ numberToString (length issues)
        ++ lit " issue(s) must be resolved before claiming completion"].

Definition formatReport (passed : bool) (issues : list jsstring) : jsstring :=
  if passed then join newline successLines
  else join newline (failureLines issues).

(** Main validation *)
Definition hallucinationPrefix : jsstring := lit "🚨 Hallucination detected: ".

Definition selfCheck (impl : Implementation) : ValidationResult :=
  let issues : list jsstring := [] in
  let q1 := checkTestsPassing impl in
  let issues := pushIfTruthy issues q1 in
  let q2 := checkRequirementsMet impl in
  let issues := pushIfTruthy issues q2 in
  let q3 := checkAssumptionsVerified impl in
  let issues := pushIfTruthy issues q3 in
  let q4 := checkEvidenceExists impl in
  let issues := pushIfTruthy issues q4 in
  let flags := detectHallucinations impl in
  let issues :=
    fold_left (fun acc f => push acc (hallucinationPrefix ++ f))
              flags issues in
  let passed := (length issues =? 0)%nat in
  let report := formatReport passed issues in
  {| passed := passed; issues := issues; report := report |}.

(** The issues of the four questions, in the order [selfCheck] asks them. *)
Definition fourCheckIssues (impl : Implementation) : list jsstring :=
  option_list (checkTestsPassing impl)
  ++ option_list (checkRequirementsMet impl)
  ++ option_list (checkAssumptionsVerified impl)
  ++ option_list (checkEvidenceExists impl).

End Validators.

(** [{ ...impl, evidence: ev }] *)
Definition withEvidence (impl : Implementation) (ev : Evidence)
  : Implementation :=
  {| testsPassed := testsPassed impl; testOutput := testOutput impl;
     requirements := requirements impl;
     requirementsMet := requirementsMet impl;
     assumptions := assumptions impl;
     assumptionsVerified := assumptionsVerified impl;
     evidence := Some ev; status := status impl;
     description := description impl; errors := errors impl;
     warnings := warnings impl |}.

(** An evidence record holding exactly one of the three required fields,
    with content the evidence question accepts. *)
Definition oneFieldAdded (ev : Evidence) : Prop :=
  (∃ t, blankText (Some t) = false
        ∧ ev = {| testResults := Some t; codeChanges := None;
                  validation := None |})
  ∨ (∃ c, c ≠ []
          ∧ ev = {| testResults := None; codeChanges := Some c;
                    validation := None |})
  ∨ (∃ v, blankText (Some v) = false
          ∧ ev = {| testResults := None; codeChanges := None;
                    validation := Some v |}).

Definition bareImpl (t : bool) : Implementation :=
  {| testsPassed := t; testOutput := None; requirements := None;
     requirementsMet := None; assumptions := None;
     assumptionsVerified := None; evidence := None; status := None;
     description := None; errors := None; warnings := None |}.

(** Sample claims *)

(** The complete claim of the specification's scenario. *)
Definition passingClaim : Implementation :=
  {| testsPassed := true;
     testOutput := Some (lit "12 passed, 0 failed");
     requirements := None; requirementsMet := None;
     assumptions := None; assumptionsVerified := None;
     evidence :=
       Some {| testResults := Some (lit "...");
               codeChanges := Some [lit "a.ts: added X"];
               validation := Some (lit "lint clean") |};
     status := Some (lit "complete");
     description := None; errors := None; warnings := None |}.

(** A claim with an evidence record that holds nothing. *)
Definition emptyEvidenceClaim : Implementation :=
  withEvidence (bareImpl false) emptyEvidence.

Definition onlyTestResults : Evidence :=
  {| testResults := Some (lit "ok"); codeChanges := None;
     validation := None |}.

(** The failing claim of the specification's scenario. *)
Definition failingCompleteClaim : Implementation :=
  {| testsPassed := false; testOutput := None;
     requirements := None; requirementsMet := None;
     assumptions := None; assumptionsVerified := None;
     evidence := None; status := Some (lit "complete");
     description := None; errors := None; warnings := None |}.

(** A claim whose requirement lists repeat and reorder their entries. *)
Definition reqAuth : jsstring := lit "auth".
Definition reqLogging : jsstring := lit "logging".

Definition repeatedRequirementsClaim : Implementation :=
  {| testsPassed := false; testOutput := None;
     requirements := Some [reqAuth; reqLogging; reqAuth];
     requirementsMet := Some [reqLogging; reqAuth; reqLogging];
     assumptions := None; assumptionsVerified := None;
     evidence := None; status := None;
     description := None; errors := None; warnings := None |}.

(** A claim of passing tests whose output is two spaces. *)
Definition blankOutputClaim : Implementation :=
  {| testsPassed := true; testOutput := Some [0x20; 0x20];
     requirements := None; requirementsMet := None;
     assumptions := None; assumptionsVerified := None;
     evidence := None; status := None;
     description := None; errors := None; warnings := None |}.

(** The text of the uncertainty flag for the phrases found. *)
Definition uncertaintyFlag (found : list jsstring) : jsstring :=
  lit "Uncertainty language detected: " ++ dquote
  ++ join (dquote ++ lit ", " ++ dquote) found ++ dquote.

(** A claim that fails every question and raises four flags. *)
Definition worstClaim : Implementation :=
  {| testsPassed := true; testOutput := None;
     requirements := Some [reqAuth]; requirementsMet := None;
     assumptions := Some [reqLogging]; assumptionsVerified := None;
     evidence := None; status := Some (lit "complete");
     description := Some (lit "probably fine");
     errors := Some [lit "boom"]; warnings := None |}.

(** The complete claim of the scenario, described with hesitation. *)
Definition hesitantClaim : Implementation :=
  {| testsPassed := true;
     testOutput := Some (lit "12 passed, 0 failed");
     requirements := None; requirementsMet := None;
     assumptions := None; assumptionsVerified := None;
     evidence :=
       Some {| testResults := Some (lit "...");
               codeChanges := Some [lit "a.ts: added X"];
               validation := Some (lit "lint clean") |};
     status := Some (lit "complete");
     description := Some (lit "This should work");
     errors := None; warnings := None |}.

(** A claim of passing tests whose output is the empty string. *)
Definition emptyOutputClaim : Implementation :=
  {| testsPassed := true; testOutput := Some [];
     requirements := None; requirementsMet := None;
     assumptions := None; assumptionsVerified := None;
     evidence := None; status := None;
     description := None; errors := None; warnings := None |}.

End SelfCheck.

(** ** Reflexion (error signatures and lookup of recorded solutions) *)

Module Reflexion.

Record ErrorInfo := {
  testName : option jsstring;
  errorType : option jsstring;
  errorMessage : option jsstring;
  traceback : option jsstring;
  rootCause : option jsstring;
  solution : option jsstring;
  prevention : option jsstring;
  whyMissed : option jsstring;
  lesson : option jsstring;
  timestamp : option jsstring
}.

(** [Pick<ErrorInfo, "rootCause" | "solution" | "prevention" | "lesson" |
    "timestamp">], with fields of type [T]: [jsstring] is the declared
    type; a lookup copies the fields unchecked from a parsed value, so
    what it returns has fields that are values ([T := Value]). *)
Record Solution (T : Type) := {
  sol_rootCause : option T;
  sol_solution : option T;
  sol_prevention : option T;
  sol_lesson : option T;
  sol_timestamp : option T
}.

Arguments sol_rootCause {T} _.
Arguments sol_solution {T} _.
Arguments sol_prevention {T} _.
Arguments sol_lesson {T} _.
Arguments sol_timestamp {T} _.

Record LookupResult (T : Type) := {
  found : bool;
  found_solution : option (Solution T)
}.

Arguments found {T} _.
Arguments found_solution {T} _.

Definition separator : jsstring := lit " | ".
Definition placeholder : jsstring := lit "N".

(** A field as the array [parts] receives it: nothing when the field is
    absent or the empty string. *)
Definition present (o : option jsstring) : list jsstring :=
  match o with
  | Some (c :: s) => [c :: s]
  | _ => []
  end.

Definition createErrorSignature (errorInfo : ErrorInfo) : jsstring :=
  let parts : list jsstring := [] in
  let parts :=
    match errorType errorInfo with
    | Some (c :: s) => push parts (c :: s)
    | _ => parts
    end in
  let parts :=
    match errorMessage errorInfo with
    | Some (c :: s) =>
      let normalised := slice0 120 (replaceDigits placeholder (c :: s)) in
      push parts normalised
    | _ => parts
    end in
  let parts :=
    match testName errorInfo with
    | Some (c :: s) => push parts (c :: s)
    | _ => parts
    end in
  join separator parts.

(** The default of the parameter [threshold]. *)
Definition defaultThreshold : Q := 7 # 10.

Section Matcher.

(** [String.prototype.toLowerCase] *)
Variable toLowerCase : jsstring -> jsstring.

(** [new Set(sig.toLowerCase().split(/\s+/).filter(Boolean))] *)
Definition words (sig : jsstring) : gset jsstring :=
  list_to_set
    (filter (fun w => isEmpty w = false) (splitWs (toLowerCase sig))).

(** Numbers are taken as rationals and the division as exact: a
    threshold is a finite value and the quotient of the two sizes is not
    rounded. *)
Definition matchSignatures (sig1 sig2 : jsstring) (threshold : Q) : bool :=
  let words1 := words sig1 in
  let words2 := words sig2 in
  if (size words1 =? 0)%nat || (size words2 =? 0)%nat then false
  else
    let overlap :=
      fold_left (fun overlap w => if bool_decide (w ∈ words2)
                                  then S overlap else overlap)
                (elements words1) 0%nat in
    let union :=
      size (list_to_set (elements words1 ++ elements words2)
              : gset jsstring) in
    Qle_bool threshold
      (inject_Z (Z.of_nat overlap) / inject_Z (Z.of_nat union)).

(** [JSON.parse(trimmed)] inside [try]: [None] is the exception the
    [catch] swallows.  The cast [as ErrorInfo] checks nothing, so the
    result is any value. *)
Variable JSON_parse : jsstring -> option Value.

(** The conversion [Array.prototype.join] applies to an element that is
    neither a string nor null; it throws on an object that no method
    turns into a primitive. *)
Variable ToString : Value -> Completion jsstring.

(** The elements of [parts] as [join] writes them. *)
Fixpoint texts (parts : list Value) : Completion (list jsstring) :=
  match parts with
  | [] => Normal []
  | v :: rest =>
    s <- match v with
         | VString s => Normal s
         | VNull => Normal []
         | _ => ToString v
         end ;;
    ss <- texts rest ;;
    Normal (s :: ss)
  end.

(** [arr.push(v)] on an array of values *)
Definition pushValue (arr : list Value) (v : Value) : list Value :=
  arr ++ [v].

(** [createErrorSignature(record)] on the value a line parsed to.  Each
    field is read from the value as it is: reading from [null] throws,
    and so does [errorMessage.replace] when the field is truthy and not
    a string; a truthy [errorType] or [testName] of another kind goes
    into [parts] and is converted by [join]. *)
Definition createErrorSignature_value (errorInfo : Value)
  : Completion jsstring :=
  let parts : list Value := [] in
  ty <- Get errorInfo (lit "errorType") ;;
  let parts :=
    match ty with
    | Some v => if ToBoolean ty then pushValue parts v else parts
    | None => parts
    end in
  msg <- Get errorInfo (lit "errorMessage") ;;
  parts <-
    (if ToBoolean msg then
       match msg with
       | Some (VString m) =>
         let normalised := slice0 120 (replaceDigits placeholder m) in
         Normal (pushValue parts (VString normalised))
       | _ => Throw
       end
     else Normal parts) ;;
  name <- Get errorInfo (lit "testName") ;;
  let parts :=
    match name with
    | Some v => if ToBoolean name then pushValue parts v else parts
    | None => parts
    end in
  ss <- texts parts ;;
  Normal (join separator ss).

(** The [for (const line of jsonlLines)] loop. *)
Fixpoint lookupLoop (querySig : jsstring) (jsonlLines : list jsstring)
  : Completion (LookupResult Value) :=
  match jsonlLines with
  | [] => Normal {| found := false; found_solution := None |}
  | line :: rest =>
    let trimmed := trim line in
    if isEmpty trimmed then lookupLoop querySig rest
    else
      match JSON_parse trimmed with
      | None => lookupLoop querySig rest
      | Some record =>
        recordSig <- createErrorSignature_value record ;;
        if matchSignatures querySig recordSig defaultThreshold
        then
          rootCause <- Get record (lit "rootCause") ;;
          solution <- Get record (lit "solution") ;;
          prevention <- Get record (lit "prevention") ;;
          lesson <- Get record (lit "lesson") ;;
          timestamp <- Get record (lit "timestamp") ;;
          Normal {| found := true;
                    found_solution :=
                      Some {| sol_rootCause := rootCause;
                              sol_solution := solution;
                              sol_prevention := prevention;
                              sol_lesson := lesson;
                              sol_timestamp := timestamp |} |}
        else lookupLoop querySig rest
      end
  end.

Definition lookupSolution (errorInfo : ErrorInfo) (jsonlLines : list jsstring)
  : Completion (LookupResult Value) :=
  let querySig := createErrorSignature errorInfo in
  lookupLoop querySig jsonlLines.

End Matcher.

(** A record of type [ErrorInfo] as a value: the object whose
    properties are the fields that are present, each a string. *)
Definition valueOf (errorInfo : ErrorInfo) : Value :=
  VObject (fun k =>
    if bool_decide (k = lit "testName") then VString <$> testName errorInfo
    else if bool_decide (k = lit "errorType")
      then VString <$> errorType errorInfo
    else if bool_decide (k = lit "errorMessage")
      then VString <$> errorMessage errorInfo
    else if bool_decide (k = lit "traceback")
      then VString <$> traceback errorInfo
    else if bool_decide (k = lit "rootCause")
      then VString <$> rootCause errorInfo
    else if bool_decide (k = lit "solution")
      then VString <$> solution errorInfo
    else if bool_decide (k = lit "prevention")
      then VString <$> prevention errorInfo
    else if bool_decide (k = lit "whyMissed")
      then VString <$> whyMissed errorInfo
    else if bool_decide (k = lit "lesson") then VString <$> lesson errorInfo
    else if bool_decide (k = lit "timestamp")
      then VString <$> timestamp errorInfo
    else None).

(** A result of the declared type as the result a lookup returns. *)
Definition asValues (result : LookupResult jsstring) : LookupResult Value :=
  {| found := found result;
     found_solution :=
       (fun sol =>
          {| sol_rootCause := VString <$> sol_rootCause sol;
             sol_solution := VString <$> sol_solution sol;
             sol_prevention := VString <$> sol_prevention sol;
             sol_lesson := VString <$> sol_lesson sol;
             sol_timestamp := VString <$> sol_timestamp sol |})
       <$> found_solution result |}.

Definition errorOf (ty msg name : option jsstring) : ErrorInfo :=
  {| testName := name; errorType := ty; errorMessage := msg;
     traceback := None; rootCause := None; solution := None;
     prevention := None; whyMissed := None; lesson := None;
     timestamp := None |}.

(** A recorded failure, the line that stores it, and a parser that reads
    that line and the text [null] and rejects any other text: an
    instance of [JSON.parse] to run lookups on small logs. *)
Definition sampleRecord : ErrorInfo :=
  {| testName := Some (lit "test_calc");
     errorType := Some (lit "AssertionError");
     errorMessage := Some (lit "Expected 12, got 7");
     traceback := None;
     rootCause := Some (lit "off by one");
     solution := Some (lit "fix the bound");
     prevention := None; whyMissed := None; lesson := None;
     timestamp := None |}.

Definition quoted (s : string) : jsstring := [0x22] ++ lit s ++ [0x22].

Definition sampleLine : jsstring :=
  lit "{" ++ quoted "testName" ++ lit ":" ++ quoted "test_calc"
  ++ lit "," ++ quoted "errorType" ++ lit ":" ++ quoted "AssertionError"
  ++ lit "," ++ quoted "errorMessage" ++ lit ":"
  ++ quoted "Expected 12, got 7"
  ++ lit "," ++ quoted "rootCause" ++ lit ":" ++ quoted "off by one"
  ++ lit "," ++ quoted "solution" ++ lit ":" ++ quoted "fix the bound"
  ++ lit "}".

(** A line cut short, which [sampleParse] rejects. *)
Definition garbageLine : jsstring := lit "{" ++ quoted "testName" ++ lit ":".

Definition nullLine : jsstring := lit "null".

Definition sampleParse (text : jsstring) : option Value :=
  if bool_decide (text = sampleLine) then Some (valueOf sampleRecord)
  else if bool_decide (text = nullLine) then Some VNull
  else None.

(** An instance of the conversion to a string, right on booleans and on
    objects that have no property [toString] or [valueOf]; the sample
    logs hold strings only. *)
Definition plainToString (v : Value) : Completion jsstring :=
  match v with
  | VBoolean true => Normal (lit "true")
  | VBoolean false => Normal (lit "false")
  | _ => Normal (lit "[object Object]")
  end.

Definition sampleQuery : ErrorInfo :=
  errorOf (Some (lit "AssertionError")) (Some (lit "Expected 12, got 7"))
          (Some (lit "test_calc")).

(** *** Recording and reporting *)

Definition lineBreak : jsstring := [0x0A].

(** [{ ...errorInfo, timestamp: ts }] *)
Definition withTimestamp (errorInfo : ErrorInfo) (ts : jsstring) : ErrorInfo :=
  {| testName := testName errorInfo; errorType := errorType errorInfo;
     errorMessage := errorMessage errorInfo;
     traceback := traceback errorInfo; rootCause := rootCause errorInfo;
     solution := solution errorInfo; prevention := prevention errorInfo;
     whyMissed := whyMissed errorInfo; lesson := lesson errorInfo;
     timestamp := Some ts |}.

Section Recording.

(** [new Date().toISOString()], the host's clock. *)
Variable now : jsstring.

(** [JSON.stringify] on a record. *)
Variable JSON_stringify : ErrorInfo -> jsstring.

Definition serialiseSolution (errorInfo : ErrorInfo) : jsstring :=
  let record := withTimestamp errorInfo now in
  JSON_stringify record.

(** The template literal of [createMistakeDoc], line by line; the last,
    empty piece is the line break that ends the template. *)
Definition createMistakeDoc (errorInfo : ErrorInfo) : jsstring :=
  let date := slice0 10 now in
  let title := default (lit "unknown") (testName errorInfo) in
  join lineBreak
    [lit "# Mistake Record: " ++ title;
     [];
     lit "**Date**: " ++ date;
     lit "**Error Type**: " ++ default (lit "Unknown") (errorType errorInfo);
     [];
     lit "---";
     [];
     lit "## ❌ What Happened";
     [];
     default (lit "No error message") (errorMessage errorInfo);
     [];
     lit "```";
     default (lit "No traceback") (traceback errorInfo);
     lit "```";
     [];
     lit "---";
     [];
     lit "## 🔍 Root Cause";
     [];
     default (lit "Not analyzed") (rootCause errorInfo);
     [];
     lit "---";
     [];
     lit "## 🤔 Why Missed";
     [];
     default (lit "Not analyzed") (whyMissed errorInfo);
     [];
     lit "---";
     [];
     lit "## ✅ Fix Applied";
     [];
     default (lit "Not documented") (solution errorInfo);
     [];
     lit "---";
     [];
     lit "## 🛡️ Prevention Checklist";
     [];
     default (lit "Not documented") (prevention errorInfo);
     [];
     lit "---";
     [];
     lit "## 💡 Lesson Learned";
     [];
     default (lit "Not documented") (lesson errorInfo);
     []].

End Recording.

Definition formatLookupOutput (errorInfo : ErrorInfo)
    (result : LookupResult jsstring) : jsstring :=
  let sig := createErrorSignature errorInfo in
  match found result, found_solution result with
  | true, Some sol =>
    let ts :=
      match sol_timestamp sol with
      | Some (c :: t) => lit " (" ++ slice0 10 (c :: t) ++ lit ")"
      | _ => []
      end in
    let lines :=
      [lit "🔍 Reflexion Lookup: " ++ sig;
       lit "✅ Known error found" ++ ts;
       lit "   Root Cause: " ++ default (lit "see record") (sol_rootCause sol);
       lit "   Solution: " ++ default (lit "see record") (sol_solution sol)] in
    let lines :=
      match sol_prevention sol with
      | Some (c :: p) => push lines (lit "   Prevention: " ++ c :: p)
      | _ => lines
      end in
    join lineBreak lines
  | _, _ =>
    join lineBreak
      [lit "🔍 Reflexion Lookup: " ++ sig;
       lit "⚠️  No prior record found — investigating root cause...";
       lit "📝 Remember to record the solution once found:";
       lit "   echo '<json>' >> docs/memory/solutions_learned.jsonl"]
  end.

(** A clock reading, the line that stores [sampleRecord] stamped with
    it, a serialiser that writes that line, and a parser that reads it:
    instances to run the recording functions. *)
Definition sampleNow : jsstring := lit "2026-01-15T10:30:00.000Z".

Definition stampedLine : jsstring :=
  lit "{" ++ quoted "testName" ++ lit ":" ++ quoted "test_calc"
  ++ lit "," ++ quoted "errorType" ++ lit ":" ++ quoted "AssertionError"
  ++ lit "," ++ quoted "errorMessage" ++ lit ":"
  ++ quoted "Expected 12, got 7"
  ++ lit "," ++ quoted "rootCause" ++ lit ":" ++ quoted "off by one"
  ++ lit "," ++ quoted "solution" ++ lit ":" ++ quoted "fix the bound"
  ++ lit "," ++ quoted "timestamp" ++ lit ":"
  ++ quoted "2026-01-15T10:30:00.000Z"
  ++ lit "}".

Definition sampleStringify (record : ErrorInfo) : jsstring := stampedLine.

Definition stampedParse (text : jsstring) : option Value :=
  if bool_decide (text = stampedLine)
  then Some (valueOf (withTimestamp sampleRecord sampleNow))
  else sampleParse text.

End Reflexion.

(** ** Session start hook (environment bootstrap) *)

Module SessionStartHook.

Inductive ProjectType := python | node | monorepo | unknown.

Record HookConfig := {
  scriptPath : jsstring;
  timeoutSeconds : Number;
  projectType : ProjectType;
  runHealthCheck : bool;
  extraCommands : option (list jsstring)
}.

Record HookCommand := {
  type : jsstring;
  command : jsstring;
  timeout : Number
}.

Record HookGroup := { hooks : list HookCommand }.

(** The object under the key [hooks] of the settings. *)
Record ClaudeSettings := { SessionStart : list HookGroup }.

Definition buildClaudeSettings (config : HookConfig) : ClaudeSettings :=
  {| SessionStart :=
       [{| hooks := [{| type := lit "command";
                        command := scriptPath config;
                        timeout := timeoutSeconds config |}] |}] |}.

Definition dq : jsstring := [0x22].

Definition scriptHeader : list jsstring :=
  [lit "#!/usr/bin/env bash";
   lit "set -euo pipefail";
   [];
   lit "echo " ++ dq ++ lit "=== Session Start Hook ===" ++ dq;
   []].

Definition installPython : list jsstring :=
  [lit "# Install Python dependencies";
   lit "if [ -f " ++ dq ++ lit "pyproject.toml" ++ dq ++ lit " ]; then";
   lit "    echo " ++ dq ++ lit "Installing Python dependencies (UV)..." ++ dq;
   lit "    uv sync --quiet 2>/dev/null || pip install -e " ++ dq ++ lit ".[dev]" ++ dq ++ lit " --quiet";
   lit "fi";
   []].

Definition installNode : list jsstring :=
  [lit "# Install Node.js dependencies";
   lit "if [ -f " ++ dq ++ lit "package.json" ++ dq ++ lit " ]; then";
   lit "    echo " ++ dq ++ lit "Installing Node dependencies..." ++ dq;
   lit "    npm ci --silent 2>/dev/null || npm install --silent";
   lit "fi";
   []].

Definition installMonorepo : list jsstring :=
  [lit "# Install all workspace dependencies";
   lit "if [ -f " ++ dq ++ lit "package.json" ++ dq ++ lit " ]; then";
   lit "    echo " ++ dq ++ lit "Installing Node dependencies..." ++ dq;
   lit "    npm ci --silent 2>/dev/null || npm install --silent";
   lit "fi";
   lit "if [ -f " ++ dq ++ lit "pyproject.toml" ++ dq ++ lit " ]; then";
   lit "    echo " ++ dq ++ lit "Installing Python dependencies (UV)..." ++ dq;
   lit "    uv sync --quiet 2>/dev/null || true";
   lit "fi";
   []].

Definition installUnknown : list jsstring :=
  [lit "# Install dependencies (auto-detected)";
   lit "[ -f " ++ dq ++ lit "package.json" ++ dq ++ lit "   ] && (npm ci --silent 2>/dev/null || npm install --silent)";
   lit "[ -f " ++ dq ++ lit "pyproject.toml" ++ dq ++ lit " ] && (uv sync --quiet  2>/dev/null || true)";
   []].

Definition linterCheck : list jsstring :=
  [lit "# Verify linters are available";
   lit "echo " ++ dq ++ lit "Checking linters..." ++ dq;
   lit "command -v ruff   >/dev/null 2>&1 && echo " ++ dq ++ lit "  ✅ ruff" ++ dq ++ lit "   || echo " ++ dq ++ lit "  ⚠️  ruff not found" ++ dq;
   lit "command -v eslint >/dev/null 2>&1 && echo " ++ dq ++ lit "  ✅ eslint" ++ dq ++ lit " || echo " ++ dq ++ lit "  ⚠️  eslint not found" ++ dq;
   []].

Definition healthPython : list jsstring :=
  [lit "if [ -f " ++ dq ++ lit "pyproject.toml" ++ dq ++ lit " ]; then";
   lit "    uv run pytest -x -q --tb=no -m " ++ dq ++ lit "not slow" ++ dq ++ lit " 2>/dev/null \";
   lit "        && echo " ++ dq ++ lit "  ✅ Tests healthy" ++ dq ++ lit " \";
   lit "        || echo " ++ dq ++ lit "  ⚠️  Some tests failing" ++ dq;
   lit "fi"].

Definition healthNode : list jsstring :=
  [lit "if [ -f " ++ dq ++ lit "package.json" ++ dq ++ lit " ]; then";
   lit "    npm test -- --passWithNoTests --silent 2>/dev/null \";
   lit "        && echo " ++ dq ++ lit "  ✅ Tests healthy" ++ dq ++ lit " \";
   lit "        || echo " ++ dq ++ lit "  ⚠️  Some tests failing" ++ dq;
   lit "fi"].

Definition echoHealthCheck : jsstring :=
  lit "echo " ++ dq ++ lit "Running health check..." ++ dq.
Definition extraMarker : jsstring :=
  lit "# Additional project-specific setup".
Definition echoReady : jsstring :=
  lit "echo " ++ dq ++ lit "=== Session ready ===" ++ dq.

(** The local array [lines] when the script is joined. *)
Definition scriptLines (config : HookConfig) : list jsstring :=
  let lines := scriptHeader in
  let lines :=
    match projectType config with
    | python => lines ++ installPython
    | node => lines ++ installNode
    | monorepo => lines ++ installMonorepo
    | unknown => lines ++ installUnknown
    end in
  let lines := lines ++ linterCheck in
  let lines :=
    if runHealthCheck config then
      let lines := push lines echoHealthCheck in
      let lines :=
        match projectType config with
        | python | monorepo => lines ++ healthPython
        | _ => lines
        end in
      let lines :=
        match projectType config with
        | node | monorepo => lines ++ healthNode
        | _ => lines
        end in
      push lines []
    else lines in
  let lines :=
    match extraCommands config with
    | Some (c :: cs) => push (push lines extraMarker ++ c :: cs) []
    | _ => lines
    end in
  let lines := push lines echoReady in
  let lines := push lines [] in
  lines.

Definition generateInitScript (config : HookConfig) : jsstring :=
  join [0x0A] (scriptLines config).

(** [manifestFiles.includes(name)] *)
Definition arrayIncludes (arr : list jsstring) (x : jsstring) : bool :=
  bool_decide (x ∈ arr).

Definition detectProjectType (manifestFiles : list jsstring) : ProjectType :=
  let hasPyproject := arrayIncludes manifestFiles (lit "pyproject.toml") in
  let hasPackageJson := arrayIncludes manifestFiles (lit "package.json") in
  if hasPyproject && hasPackageJson then monorepo
  else if hasPyproject then python
  else if hasPackageJson then node
  else unknown.

Definition recommendTimeout (projectType : ProjectType)
    (runHealthCheck : bool) : Q :=
  let base : Q :=
    match projectType with
    | python => 30
    | node => 30
    | monorepo => 60
    | unknown => 30
    end%Q in
  let healthCheckExtra : Q := (if runHealthCheck then 30 else 0)%Q in
  (base + healthCheckExtra)%Q.

Definition msgScriptPath : jsstring := lit "scriptPath must not be empty".
Definition msgTimeoutPositive : jsstring :=
  lit "timeoutSeconds must be a positive number".
Definition msgTimeoutTooLong : jsstring :=
  lit "timeoutSeconds should not exceed 300 (session start would be too slow)".

Definition validateHookConfig (config : HookConfig) : list jsstring :=
  let errors : list jsstring := [] in
  let errors :=
    if isEmpty (scriptPath config) || isEmpty (trim (scriptPath config))
    then push errors msgScriptPath else errors in
  let errors :=
    if Number_le (timeoutSeconds config) (Finite 0)
    then push errors msgTimeoutPositive else errors in
  let errors :=
    if Number_gt (timeoutSeconds config) (Finite 300)
    then push errors msgTimeoutTooLong else errors in
  errors.

(** [{ ...config, extraCommands: extra }] *)
Definition withExtraCommands (config : HookConfig)
    (extra : option (list jsstring)) : HookConfig :=
  {| scriptPath := scriptPath config;
     timeoutSeconds := timeoutSeconds config;
     projectType := projectType config;
     runHealthCheck := runHealthCheck config;
     extraCommands := extra |}.

(** The lines of the script that run the test suites. *)
Definition pytestLine : jsstring :=
  lit "    uv run pytest -x -q --tb=no -m " ++ dq ++ lit "not slow" ++ dq
  ++ lit " 2>/dev/null \".
Definition npmTestLine : jsstring :=
  lit "    npm test -- --passWithNoTests --silent 2>/dev/null \".

(** A configuration built the way the helpers suggest. *)
Definition suggestedConfig (path : jsstring) (manifestFiles : list jsstring)
    (health : bool) (extra : option (list jsstring)) : HookConfig :=
  {| scriptPath := path;
     timeoutSeconds := recommendTimeout (detectProjectType manifestFiles) health;
     projectType := detectProjectType manifestFiles;
     runHealthCheck := health;
     extraCommands := extra |}.

End SessionStartHook.

Import SelfCheck Reflexion.

(** * Properties *)

(** ** Strings *)

Section StringFacts.

Lemma join_cons2 sep (x y : jsstring) xs :
  join sep (x :: y :: xs) = x ++ sep ++ join sep (y :: xs).
Proof. reflexivity. Qed.

Lemma splitOn_go_app sep (x : jsstring) cur rest :
  Forall (fun c => c ≠ sep) x →
  splitOn_go sep cur (x ++ rest) = splitOn_go sep (rev x ++ cur) rest.
Proof.
  intros Hx. revert cur.
  induction Hx as [|c x Hc _ IH]; intros cur; [reflexivity|].
  simpl. apply N.eqb_neq in Hc. rewrite Hc, IH.
  by rewrite <- app_assoc.
Qed.

(** Splitting a joined array gives the array back when no element holds
    the separator. *)
Lemma lines_join (xs : list jsstring) :
  xs ≠ [] →
  Forall (fun x => Forall (fun c => c ≠ 0x0A) x) xs →
  lines (join [0x0A] xs) = xs.
Proof.
  intros Hne Hxs. unfold lines.
  induction Hxs as [|x xs Hx Hxs IH]; [done|].
  destruct xs as [|y xs].
  - simpl. rewrite <- (app_nil_r x) at 1.
    rewrite splitOn_go_app by done. simpl.
    by rewrite app_nil_r, rev_involutive.
  - rewrite join_cons2, splitOn_go_app by done.
    cbn [app splitOn_go]. rewrite N.eqb_refl, app_nil_r, rev_involutive.
    f_equal. by apply IH.
Qed.

Lemma no_newline_check (l : jsstring) :
  forallb (fun c => negb (c =? 0x0A)) l = true →
  Forall (fun c => c ≠ 0x0A) l.
Proof.
  rewrite forallb_forall, Forall_forall. intros H c Hc.
  apply list_elem_of_In, H in Hc. apply N.eqb_neq. by destruct (c =? 0x0A).
Qed.

Lemma numberToString_no_newline n :
  Forall (fun c => c ≠ 0x0A) (numberToString n).
Proof.
  unfold numberToString.
  induction (Nat.to_uint n); simpl; constructor; done.
Qed.

End StringFacts.

(** ** Self check *)

Section SelfCheckFacts.

Variable toLowerCase : jsstring -> jsstring.

Lemma checkTestsPassing_head impl s :
  checkTestsPassing toLowerCase impl = Some s → head s = Some crossMark.
Proof.
  unfold checkTestsPassing.
  repeat (case_match; try done); intros [= <-]; reflexivity.
Qed.

Lemma checkRequirementsMet_head impl s :
  checkRequirementsMet impl = Some s → head s = Some crossMark.
Proof.
  unfold checkRequirementsMet.
  repeat (case_match; try done); intros [= <-]; reflexivity.
Qed.

Lemma checkAssumptionsVerified_head impl s :
  checkAssumptionsVerified impl = Some s → head s = Some crossMark.
Proof.
  unfold checkAssumptionsVerified.
  repeat (case_match; try done); intros [= <-]; reflexivity.
Qed.

Lemma checkEvidenceExists_head impl s :
  checkEvidenceExists impl = Some s → head s = Some crossMark.
Proof.
  unfold checkEvidenceExists.
  repeat (case_match; try done); intros [= <-]; reflexivity.
Qed.

Lemma pushIfTruthy_head arr q :
  (∀ s, q = Some s → head s = Some crossMark) →
  pushIfTruthy arr q = arr ++ option_list q.
Proof.
  intros Hq. destruct q as [[|c s]|]; simpl.
  - by specialize (Hq [] eq_refl).
  - reflexivity.
  - by rewrite app_nil_r.
Qed.

Lemma forEach_push (f : jsstring → jsstring) flags arr :
  fold_left (fun acc x => push acc (f x)) flags arr = arr ++ map f flags.
Proof.
  revert arr. induction flags as [|x flags IH]; intros arr; simpl.
  - by rewrite app_nil_r.
  - rewrite IH. unfold push. by rewrite <- app_assoc.
Qed.

Lemma selfCheck_issues impl :
  issues (selfCheck toLowerCase impl)
  = fourCheckIssues toLowerCase impl
    ++ map (fun f => hallucinationPrefix ++ f)
           (detectHallucinations toLowerCase impl).
Proof.
  unfold selfCheck, fourCheckIssues. cbn [issues].
  rewrite forEach_push.
  rewrite !pushIfTruthy_head
    by eauto using checkTestsPassing_head, checkRequirementsMet_head,
         checkAssumptionsVerified_head, checkEvidenceExists_head.
  by rewrite app_nil_l, <- !app_assoc.
Qed.

Lemma prefix_head (p s : jsstring) c d :
  head p = Some c → head s = Some d → c ≠ d → ¬ p `prefix_of` s.
Proof.
  intros Hp Hs Hcd [k ->]. destruct p as [|c' p]; simplify_eq/=.
Qed.

(** C1: the verdict of [selfCheck] has [passed] equal to
    [issues.length == 0], and [passed] is true exactly when the combined
    list, the issues of the four questions followed by the red-flag
    issues, is empty. *)
Theorem selfCheck_passed_iff_no_issues (impl : Implementation) :
  passed (selfCheck toLowerCase impl)
  = bool_decide (length (issues (selfCheck toLowerCase impl)) = 0%nat)
  ∧ (passed (selfCheck toLowerCase impl) = true
     ↔ fourCheckIssues toLowerCase impl
       ++ map (fun f => hallucinationPrefix ++ f)
              (detectHallucinations toLowerCase impl) = []).
Proof.
  rewrite <- selfCheck_issues.
  assert (passed (selfCheck toLowerCase impl)
          = (length (issues (selfCheck toLowerCase impl)) =? 0)%nat) as ->
    by reflexivity.
  destruct (issues (selfCheck toLowerCase impl)) as [|i l]; simpl.
  - split; [reflexivity|done].
  - split; [reflexivity|]. split; discriminate.
Qed.

(** C4: [selfCheck] asks all four questions whatever the earlier ones
    answered: its issues are those of tests-passing, requirements,
    assumptions and evidence, in this order, followed by the red flags;
    every red-flag issue starts with the hallucination prefix and no issue
    of the four questions does. *)
Theorem selfCheck_issues_in_order (impl : Implementation) :
  issues (selfCheck toLowerCase impl)
  = option_list (checkTestsPassing toLowerCase impl)
    ++ option_list (checkRequirementsMet impl)
    ++ option_list (checkAssumptionsVerified impl)
    ++ option_list (checkEvidenceExists impl)
    ++ map (fun f => hallucinationPrefix ++ f)
           (detectHallucinations toLowerCase impl)
  ∧ Forall (fun i => hallucinationPrefix `prefix_of` i)
           (map (fun f => hallucinationPrefix ++ f)
                (detectHallucinations toLowerCase impl))
  ∧ Forall (fun i => ¬ hallucinationPrefix `prefix_of` i)
           (fourCheckIssues toLowerCase impl).
Proof.
  split; [|split].
  - rewrite selfCheck_issues. unfold fourCheckIssues.
    by rewrite <- !app_assoc.
  - apply Forall_map, Forall_true. intros f. by apply prefix_app_r.
  - assert (∀ q, (∀ s, q = Some s → head s = Some crossMark) →
                 Forall (fun i => ¬ hallucinationPrefix `prefix_of` i)
                        (option_list q)) as Hq.
    { intros [s|] Hs; simpl; [|constructor].
      constructor; [|constructor].
      eapply (prefix_head _ _ 0xD83D crossMark); [reflexivity|by apply Hs|done]. }
    unfold fourCheckIssues. rewrite !Forall_app.
    repeat split; apply Hq;
      eauto using checkTestsPassing_head, checkRequirementsMet_head,
        checkAssumptionsVerified_head, checkEvidenceExists_head.
Qed.

(** C3: the requirements check returns no issue exactly when every entry
    of [requirements] is a member of [requirementsMet]; the answer only
    depends on the two lists as sets; an empty or absent [requirements]
    passes; and a failing check is one issue that lists every unmet
    entry. *)
Theorem requirements_check_is_containment (impl : Implementation) :
  (checkRequirementsMet impl = None
   ↔ ∀ r, r ∈ default [] (requirements impl)
          → r ∈ default [] (requirementsMet impl))
  ∧ (default [] (requirements impl) = [] → checkRequirementsMet impl = None)
  ∧ (checkRequirementsMet impl = None
     ∨ checkRequirementsMet impl
       = Some (lit "❌ Requirements not fully met: "
               ++ join (lit ", ")
                    (filter (fun r => r ∉ default [] (requirementsMet impl))
                            (default [] (requirements impl)))))
  ∧ (∀ impl',
       (∀ r, r ∈ default [] (requirements impl)
             ↔ r ∈ default [] (requirements impl')) →
       (∀ r, r ∈ default [] (requirementsMet impl)
             ↔ r ∈ default [] (requirementsMet impl')) →
       (checkRequirementsMet impl = None
        ↔ checkRequirementsMet impl' = None)).
Proof.
  assert (∀ i, checkRequirementsMet i = None
               ↔ ∀ r, r ∈ default [] (requirements i)
                      → r ∈ default [] (requirementsMet i)) as Hiff.
  { intros i. unfold checkRequirementsMet.
    destruct (default [] (requirements i)) as [|r0 R] eqn:HR.
    { simpl. split; [intros _ r Hr; by apply elem_of_nil in Hr|done]. }
    cbn [length Nat.eqb].
    set (M := default [] (requirementsMet i)).
    destruct (filter _ (r0 :: R)) as [|u unmet] eqn:Hf; cbn [length Nat.eqb].
    - split; [intros _ r Hr|done].
      destruct (decide (r ∈ M)) as [|Hn]; [done|].
      assert (r ∈ filter (fun r => r ∉ (list_to_set M : gset jsstring))
                         (r0 :: R)) as Hin.
      { apply list_elem_of_filter. split; [|done].
        by rewrite elem_of_list_to_set. }
      rewrite Hf in Hin. by apply elem_of_nil in Hin.
    - split; [done|]. intros Hall.
      assert (u ∈ filter (fun r => r ∉ (list_to_set M : gset jsstring))
                         (r0 :: R)) as Hin by (rewrite Hf; left).
      apply list_elem_of_filter in Hin as [Hn Hu].
      rewrite elem_of_list_to_set in Hn. by specialize (Hall u Hu). }
  split; [apply Hiff|]. split; [|split].
  - intros HR. unfold checkRequirementsMet. by rewrite HR.
  - unfold checkRequirementsMet.
    destruct (length (default [] (requirements impl)) =? 0)%nat; [by left|].
    destruct (length _ =? 0)%nat; [by left|]. right. do 3 f_equal.
    apply list_filter_iff. intros r. by rewrite elem_of_list_to_set.
  - intros impl' HR HM. rewrite !Hiff. split; intros H r Hr.
    + apply HM, H, HR, Hr.
    + apply HM, H, HR, Hr.
Qed.

(** The scanner's result is the no-output flag, when raised, followed
    by flags that all differ from it. *)
Lemma detectHallucinations_app impl :
  ∃ rest, detectHallucinations toLowerCase impl
          = (if testsPassed impl && negb (truthy (testOutput impl))
             then [flagNoOutput] else []) ++ rest
          ∧ Forall (fun f => f ≠ flagNoOutput) rest.
Proof.
  unfold detectHallucinations, push. rewrite app_nil_l.
  set (fA := if testsPassed impl && _ then _ else _).
  set (cB := strictEq _ _ && negb (bool_decide _)).
  set (cC := strictEq _ _ && negb (testsPassed impl)).
  set (cD := (_ || _) && strictEq _ _).
  set (found := filter _ UNCERTAINTY_WORDS).
  set (cE := (0 <? length found)%nat).
  set (u := lit "Uncertainty language detected: " ++ _).
  exists ((if cB then [flagNoEvidence] else [])
          ++ (if cC then [flagFailingTests] else [])
          ++ (if cD then [flagIgnored] else [])
          ++ (if cE then [u] else [])).
  split.
  - destruct cB, cC, cD, cE; by rewrite <- ?app_assoc, ?app_nil_r.
  - rewrite !Forall_app. repeat split.
    + destruct cB; repeat constructor.
      intros H; apply (f_equal length) in H; by vm_compute in H.
    + destruct cC; repeat constructor.
      intros H; apply (f_equal length) in H; by vm_compute in H.
    + destruct cD; repeat constructor.
      intros H; apply (f_equal length) in H; by vm_compute in H.
    + destruct cE; repeat constructor.
      intros H; apply (f_equal head) in H. discriminate H.
Qed.

(** C8 as the code has it: the scanner raises the no-output flag exactly
    when [testsPassed] is true and [testOutput] is absent or the empty
    string; an output that holds at least one character, white space
    included, does not raise it. *)
Theorem flag_no_output_iff (impl : Implementation) :
  (flagNoOutput ∈ detectHallucinations toLowerCase impl
   ↔ testsPassed impl = true
     ∧ (testOutput impl = None ∨ testOutput impl = Some []))
  ∧ (∀ c out, testOutput impl = Some (c :: out) →
              flagNoOutput ∉ detectHallucinations toLowerCase impl).
Proof.
  destruct (detectHallucinations_app impl) as (rest & -> & Hrest).
  assert (flagNoOutput ∉ rest) as Hnot.
  { intros Hin. rewrite Forall_forall in Hrest. by apply (Hrest _ Hin). }
  assert (∀ b : bool,
            flagNoOutput ∈ (if b then [flagNoOutput] else []) ++ rest
            ↔ b = true) as Hb.
  { intros [|]; rewrite elem_of_app.
    - split; [done|]. intros _. left. by left.
    - split; [|done]. intros [H|H]; [by apply elem_of_nil in H|done]. }
  split.
  - rewrite Hb, andb_true_iff, negb_true_iff.
    destruct (testOutput impl) as [[|c out]|]; simpl.
    + split; [intros [? _]; eauto|by intros [? _]].
    + split; [by intros [_ ?]|]. by intros [_ [?|?]].
    + split; [intros [? _]; eauto|by intros [? _]].
  - intros c out Hout. rewrite Hb, Hout. simpl.
    by rewrite andb_false_r.
Qed.

(** C2 as the code has it: a passing verdict's report is a fixed block of
    eight lines (a header, one confirmation line per question, a blank
    line and two status lines); a failing verdict's report is the header,
    one line per issue (the issue indented by three spaces), a blank
    line, the line announcing the failure and a last line stating the
    number of issues. *)
Theorem report_layout (impl : Implementation) :
  if passed (selfCheck toLowerCase impl)
  then
    lines (report (selfCheck toLowerCase impl))
    = [lit "📋 Self-Check Validation:";
       lit "   ✅ Tests passing";
       lit "   ✅ All requirements met";
       lit "   ✅ All assumptions verified";
       lit "   ✅ Evidence provided";
       [];
       lit "📊 Validation: PASSED";
       lit "✅ Implementation complete with evidence"]
  else
    report (selfCheck toLowerCase impl)
    = join newline
        ([lit "📋 Self-Check Validation:"]
         ++ map (fun i => lit "   " ++ i) (issues (selfCheck toLowerCase impl))
         ++ [[];
             lit "📊 Validation: FAILED";
             lit "❌ "
             ++ numberToString (length (issues (selfCheck toLowerCase impl)))
             ++ lit " issue(s) must be resolved before claiming completion"])
    ∧ (Forall (fun i => Forall (fun c => c ≠ 0x0A) i)
              (issues (selfCheck toLowerCase impl)) →
       lines (report (selfCheck toLowerCase impl))
       = [lit "📋 Self-Check Validation:"]
         ++ map (fun i => lit "   " ++ i) (issues (selfCheck toLowerCase impl))
         ++ [[];
             lit "📊 Validation: FAILED";
             lit "❌ "
             ++ numberToString (length (issues (selfCheck toLowerCase impl)))
             ++ lit " issue(s) must be resolved before claiming completion"]).
Proof.
  assert (report (selfCheck toLowerCase impl)
          = formatReport (passed (selfCheck toLowerCase impl))
                         (issues (selfCheck toLowerCase impl))) as ->
    by reflexivity.
  destruct (passed (selfCheck toLowerCase impl)).
  { cbv beta iota delta [formatReport]. by vm_compute. }
  set (iss := issues (selfCheck toLowerCase impl)).
  split; [reflexivity|]. intros Hiss.
  assert (∀ l : jsstring, forallb (fun c => negb (c =? 0x0A)) l = true →
                          ∀ r, Forall (fun c => c ≠ 0x0A) r →
                               Forall (fun c => c ≠ 0x0A) (l ++ r)) as Hlit.
  { intros l Hl r Hr. apply Forall_app. split; [|done].
    by apply no_newline_check. }
  unfold formatReport, failureLines. apply lines_join.
  { discriminate. }
  rewrite !Forall_app. split; [|split].
  - apply Forall_cons. split; [|by apply Forall_nil].
    apply no_newline_check. by vm_compute.
  - apply Forall_map. eapply Forall_impl; [exact Hiss|].
    intros i Hi. cbv beta in *. apply Hlit; [by vm_compute|done].
  - apply Forall_cons. split; [by apply Forall_nil|].
    apply Forall_cons. split; [apply no_newline_check; by vm_compute|].
    apply Forall_cons. split; [|by apply Forall_nil].
    apply Hlit; [by vm_compute|]. apply Forall_app. split.
    + apply numberToString_no_newline.
    + apply no_newline_check. by vm_compute.
Qed.

Lemma missingEvidence_empty impl :
  default emptyEvidence (evidence impl) = emptyEvidence →
  missingEvidence impl
  = [lit "testResults"; lit "codeChanges"; lit "validation"].
Proof. intros H. unfold missingEvidence. by rewrite H. Qed.

Lemma missingEvidence_one impl ev :
  oneFieldAdded ev → length (missingEvidence (withEvidence impl ev)) = 2%nat.
Proof.
  unfold missingEvidence.
  cbn [withEvidence evidence default from_option id].
  intros [(t & Ht & ->)|[(c & Hc & ->)|(v & Hv & ->)]];
    cbn [testResults codeChanges validation].
  - by rewrite Ht.
  - by destruct c.
  - by rewrite Hv.
Qed.

(** With an evidence record in place the scanner raises the same flags,
    except the no-evidence flag, which it can no longer raise. *)
Lemma detectHallucinations_withEvidence impl ev :
(length (detectHallucinations toLowerCase (withEvidence impl ev))
   ≤ length (detectHallucinations toLowerCase impl))%nat
  ∧ (is_Some (evidence impl) →
     detectHallucinations toLowerCase (withEvidence impl ev)
     = detectHallucinations toLowerCase impl).
Proof.
  unfold detectHallucinations, push.
  cbn [withEvidence testsPassed testOutput status evidence description
       errors warnings].
  destruct (evidence impl) as [ev0|].
  - split; [|intros _].
    + apply Nat.eq_le_incl. f_equal.
    + repeat case_bool_decide; try done;
        match goal with H : ¬ is_Some (Some _) |- _ => by destruct H end.
  - split; [|by intros [? ?]].
    rewrite bool_decide_eq_true_2 by eauto.
    rewrite bool_decide_eq_false_2 by (by intros [? ?]).
    rewrite andb_false_r. cbn [negb]. rewrite andb_true_r.
    repeat case_match; rewrite ?length_app; simpl; lia.
Qed.

(** C7 as the code has it: starting from a claim whose evidence record
    is empty, adding any one of the three required fields (text that is
    not blank, or a non-empty list of changes) never increases the number
    of issues of the validation, and leaves it unchanged when the empty
    record is present: the evidence question still answers with one
    issue, which now names two missing fields instead of three. *)
Theorem evidence_field_added (impl : Implementation) (ev : Evidence) :
  default emptyEvidence (evidence impl) = emptyEvidence →
  oneFieldAdded ev →
  (length (issues (selfCheck toLowerCase (withEvidence impl ev)))
   ≤ length (issues (selfCheck toLowerCase impl)))%nat
  ∧ (evidence impl = Some emptyEvidence →
     length (issues (selfCheck toLowerCase (withEvidence impl ev)))
     = length (issues (selfCheck toLowerCase impl)))
  ∧ length (missingEvidence impl) = 3%nat
  ∧ length (missingEvidence (withEvidence impl ev)) = 2%nat
  ∧ checkEvidenceExists impl
    = Some (lit "❌ Missing evidence: "
            ++ join (lit ", ") (missingEvidence impl))
  ∧ checkEvidenceExists (withEvidence impl ev)
    = Some (lit "❌ Missing evidence: "
            ++ join (lit ", ") (missingEvidence (withEvidence impl ev))).
Proof.
  intros Hempty Hone.
  pose proof (missingEvidence_empty impl Hempty) as H3.
  pose proof (missingEvidence_one impl ev Hone) as H2.
  assert (checkEvidenceExists impl
          = Some (lit "❌ Missing evidence: "
                  ++ join (lit ", ") (missingEvidence impl))) as Hq.
  { unfold checkEvidenceExists. by rewrite H3. }
  assert (checkEvidenceExists (withEvidence impl ev)
          = Some (lit "❌ Missing evidence: "
                  ++ join (lit ", ") (missingEvidence (withEvidence impl ev))))
    as Hq'.
  { unfold checkEvidenceExists. by rewrite H2. }
  destruct (detectHallucinations_withEvidence impl ev) as [Hle Heq].
  assert (∀ i, length (issues (selfCheck toLowerCase i))
               = (length (option_list (checkTestsPassing toLowerCase i))
                  + length (option_list (checkRequirementsMet i))
                  + length (option_list (checkAssumptionsVerified i))
                  + length (option_list (checkEvidenceExists i))
                  + length (detectHallucinations toLowerCase i))%nat)
    as Hlen.
  { intros i. rewrite selfCheck_issues. unfold fourCheckIssues.
    rewrite !length_app, length_map. lia. }
  rewrite !Hlen, Hq, Hq'.
  change (checkTestsPassing toLowerCase (withEvidence impl ev))
    with (checkTestsPassing toLowerCase impl).
  change (checkRequirementsMet (withEvidence impl ev))
    with (checkRequirementsMet impl).
  change (checkAssumptionsVerified (withEvidence impl ev))
    with (checkAssumptionsVerified impl).
  split; [simpl; lia|]. split.
  - intros Hsome. rewrite Heq by (by rewrite Hsome). reflexivity.
  - repeat split; [by rewrite H3|done..].
Qed.

End SelfCheckFacts.

(** *** Closed instances *)

(** C2, counterexample: the report of a passing claim has eight lines,
    not five; the report of a failing claim with two issues shows each
    issue indented, and two lines, not one, after the blank line. *)
Lemma report_success_block_has_eight_lines :
  passed (selfCheck asciiLower passingClaim) = true
  ∧ length (lines (report (selfCheck asciiLower passingClaim))) = 8%nat
  ∧ length (lines (report (selfCheck asciiLower passingClaim))) ≠ 5%nat
  ∧ passed (selfCheck asciiLower (bareImpl false)) = false
  ∧ issues (selfCheck asciiLower (bareImpl false))
    = [lit "❌ Tests not passing — implementation is incomplete";
       lit "❌ Missing evidence: testResults, codeChanges, validation"]
  ∧ lines (report (selfCheck asciiLower (bareImpl false)))
    = [lit "📋 Self-Check Validation:";
       lit "   ❌ Tests not passing — implementation is incomplete";
       lit "   ❌ Missing evidence: testResults, codeChanges, validation";
       [];
       lit "📊 Validation: FAILED";
       lit "❌ 2 issue(s) must be resolved before claiming completion"].
Proof.
  split; [by vm_compute|]. split; [by vm_compute|].
  split; [by vm_compute|]. split; [by vm_compute|].
  split; by vm_compute.
Qed.

(** C2, instance of [report_layout] on a failing claim. *)
Lemma report_layout_witness :
  lines (report (selfCheck asciiLower (bareImpl false)))
  = [lit "📋 Self-Check Validation:"]
    ++ map (fun i => lit "   " ++ i)
           (issues (selfCheck asciiLower (bareImpl false)))
    ++ [[];
        lit "📊 Validation: FAILED";
        lit "❌ "
        ++ numberToString
             (length (issues (selfCheck asciiLower (bareImpl false))))
        ++ lit " issue(s) must be resolved before claiming completion"].
Proof.
  pose proof (report_layout asciiLower (bareImpl false)) as H.
  change (passed (selfCheck asciiLower (bareImpl false))) with false in H.
  apply H. apply Forall_forall. intros i Hi.
  apply no_newline_check.
  revert i Hi. apply Forall_forall. vm_compute. repeat constructor.
Defined.

(** C7, counterexample: adding [testResults] to an empty evidence record
    leaves the validation with as many issues as before, whether the
    empty record was present or the field [evidence] absent. *)
Lemma evidence_field_keeps_issue_count :
  evidence emptyEvidenceClaim = Some emptyEvidence
  ∧ length (issues (selfCheck asciiLower emptyEvidenceClaim)) = 2%nat
  ∧ length (issues (selfCheck asciiLower (bareImpl false))) = 2%nat
  ∧ length (issues (selfCheck asciiLower
                      (withEvidence emptyEvidenceClaim onlyTestResults)))
    = 2%nat
  ∧ issues (selfCheck asciiLower emptyEvidenceClaim)
    = [lit "❌ Tests not passing — implementation is incomplete";
       lit "❌ Missing evidence: testResults, codeChanges, validation"]
  ∧ issues (selfCheck asciiLower
              (withEvidence emptyEvidenceClaim onlyTestResults))
    = [lit "❌ Tests not passing — implementation is incomplete";
       lit "❌ Missing evidence: codeChanges, validation"].
Proof.
  split; [reflexivity|]. split; [by vm_compute|].
  split; [by vm_compute|]. split; [by vm_compute|].
  split; by vm_compute.
Qed.

(** C7, instance of [evidence_field_added]. *)
Lemma evidence_field_added_witness :
  default emptyEvidence (evidence emptyEvidenceClaim) = emptyEvidence
  ∧ oneFieldAdded onlyTestResults
  ∧ length (issues (selfCheck asciiLower
                      (withEvidence emptyEvidenceClaim onlyTestResults)))
    = length (issues (selfCheck asciiLower emptyEvidenceClaim))
  ∧ length (missingEvidence (withEvidence emptyEvidenceClaim onlyTestResults))
    = 2%nat.
Proof.
  assert (oneFieldAdded onlyTestResults) as Hone.
  { left. exists (lit "ok"). split; [by vm_compute|reflexivity]. }
  split; [reflexivity|]. split; [exact Hone|].
  destruct (evidence_field_added asciiLower emptyEvidenceClaim onlyTestResults
              eq_refl Hone) as (_ & Hlen & _ & Hmiss & _).
  split; [exact (Hlen eq_refl)|exact Hmiss].
Defined.

(** C3, instance of [requirements_check_is_containment]: repeated and
    reordered entries do not matter. *)
Lemma requirements_check_witness :
  checkRequirementsMet repeatedRequirementsClaim = None.
Proof.
  destruct (requirements_check_is_containment repeatedRequirementsClaim)
    as ([_ Hall] & _).
  apply Hall. cbn [repeatedRequirementsClaim requirements requirementsMet
                   default from_option id].
  intros r Hr. rewrite !elem_of_cons in Hr. rewrite !elem_of_cons.
  destruct Hr as [->|[->|[->|Hr]]]; [by right; left|by left|by right; left|].
  by apply elem_of_nil in Hr.
Defined.

(** C8, instance of [flag_no_output_iff]: an output of two spaces is
    blank for the tests question and yet does not raise the flag. *)
Lemma flag_no_output_witness :
  checkTestsPassing asciiLower blankOutputClaim = Some msgNoOutput
  ∧ flagNoOutput ∉ detectHallucinations asciiLower blankOutputClaim.
Proof.
  split; [by vm_compute|].
  destruct (flag_no_output_iff asciiLower blankOutputClaim) as [_ Hnot].
  by apply (Hnot 0x20 [0x20]).
Defined.

(** C8, counterexample: a claim whose [testOutput] is present, the empty
    string, raises the no-output flag. *)
Lemma empty_output_raises_flag :
  testsPassed emptyOutputClaim = true
  ∧ testOutput emptyOutputClaim = Some []
  ∧ flagNoOutput ∈ detectHallucinations asciiLower emptyOutputClaim.
Proof.
  split; [reflexivity|]. split; [reflexivity|].
  assert (detectHallucinations asciiLower emptyOutputClaim = [flagNoOutput])
    as -> by (by vm_compute).
  by left.
Qed.

(** ** Reflexion *)

Section ReflexionFacts.

Variable toLowerCase : jsstring -> jsstring.

Lemma count_loop (P : jsstring → Prop) `{!∀ w, Decision (P w)} l n :
  fold_left (fun overlap w => if bool_decide (P w) then S overlap else overlap)
            l n
  = (n + length (filter P l))%nat.
Proof.
  revert n. induction l as [|w l IH]; intros n; simpl; [lia|].
  rewrite IH. rewrite filter_cons. case_bool_decide.
  - rewrite decide_True by done. simpl. lia.
  - rewrite decide_False by done. reflexivity.
Qed.

Lemma overlap_size (X Y : gset jsstring) :
  length (filter (fun w => w ∈ Y) (elements X)) = size (X ∩ Y).
Proof.
  rewrite <- (size_list_to_set (C := gset jsstring)).
  - f_equal. apply set_eq. intros w.
    rewrite elem_of_list_to_set, list_elem_of_filter, elem_of_elements.
    rewrite elem_of_intersection. tauto.
  - apply NoDup_filter, NoDup_elements.
Qed.

Lemma union_size (X Y : gset jsstring) :
  size (list_to_set (elements X ++ elements Y) : gset jsstring) = size (X ∪ Y).
Proof. by rewrite list_to_set_app_L, !list_to_set_elements_L. Qed.

(** [matchSignatures] computes the Jaccard index of the two word sets
    and compares it with the threshold. *)
Lemma matchSignatures_jaccard sig1 sig2 threshold :
  matchSignatures toLowerCase sig1 sig2 threshold
  = if (size (words toLowerCase sig1) =? 0)%nat
       || (size (words toLowerCase sig2) =? 0)%nat
    then false
    else Qle_bool threshold
           (inject_Z (Z.of_nat (size (words toLowerCase sig1
                                      ∩ words toLowerCase sig2)))
            / inject_Z (Z.of_nat (size (words toLowerCase sig1
                                        ∪ words toLowerCase sig2)))).
Proof.
  unfold matchSignatures.
  by rewrite count_loop, overlap_size, union_size.
Qed.

(** C9: similarity is symmetric in the two signatures, whatever the
    threshold. *)
Theorem matchSignatures_symmetric (A B : jsstring) (t : Q) :
  matchSignatures toLowerCase A B t = matchSignatures toLowerCase B A t.
Proof.
  rewrite !matchSignatures_jaccard.
  rewrite (orb_comm (size (words toLowerCase A) =? 0)%nat).
  rewrite (comm_L (∩) (words toLowerCase A)).
  by rewrite (comm_L (∪) (words toLowerCase A)).
Qed.

(** *** Tokens *)

Lemma filter_nonEmpty_cons (w : jsstring) l :
  filter (fun w => isEmpty w = false) (w :: l)
  = if isEmpty w then filter (fun w => isEmpty w = false) l
    else w :: filter (fun w => isEmpty w = false) l.
Proof.
  rewrite filter_cons. by destruct w.
Qed.

Lemma isEmpty_rev (s : jsstring) : isEmpty (rev s) = isEmpty s.
Proof.
  destruct s as [|c s]; [done|]. simpl. by destruct (rev s).
Qed.

Lemma isEmpty_true (s : jsstring) : isEmpty s = true ↔ s = [].
Proof. by destruct s. Qed.

Lemma splitWs_go_tokens s inSep cur :
  (inSep = true → cur = []) →
  filter (fun w => isEmpty w = false) (splitWs_go inSep cur s) = []
  ↔ cur = [] ∧ forallb isWhiteSpace s = true.
Proof.
  revert inSep cur. induction s as [|c s IH]; intros inSep cur Hinv.
  - cbn [splitWs_go forallb]. rewrite filter_nonEmpty_cons, isEmpty_rev.
    destruct cur; simpl; [done|]. split; [done|]. by intros [? _].
  - cbn [splitWs_go forallb]. destruct (isWhiteSpace c) eqn:Hc; cbn [andb].
    + destruct inSep.
      * rewrite (Hinv eq_refl), IH by done. tauto.
      * rewrite filter_nonEmpty_cons, isEmpty_rev.
        destruct cur; simpl.
        -- rewrite IH by done. tauto.
        -- split; [done|]. by intros [? _].
    + rewrite IH by done. split; [by intros [? _]|]. by intros [_ ?].
Qed.

(** A string has no token exactly when it is blank. *)
Lemma tokens_nil_iff s :
  filter (fun w => isEmpty w = false) (splitWs s) = []
  ↔ forallb isWhiteSpace s = true.
Proof.
  unfold splitWs. rewrite splitWs_go_tokens by done. tauto.
Qed.

Lemma words_empty_iff s :
  words toLowerCase s = ∅
  ↔ filter (fun w => isEmpty w = false) (splitWs (toLowerCase s)) = [].
Proof.
  unfold words. split; [|by intros ->].
  destruct (filter _ _) as [|w l]; [done|].
  intros H. assert (w ∈ (∅ : gset jsstring)) as Hw.
  { rewrite <- H. rewrite list_to_set_cons. apply elem_of_union_l.
    by apply elem_of_singleton. }
  by apply not_elem_of_empty in Hw.
Qed.

Lemma size_words_zero s :
  (size (words toLowerCase s) =? 0)%nat = true ↔ words toLowerCase s = ∅.
Proof. rewrite Nat.eqb_eq, size_empty_iff. by unfold_leibniz. Qed.

(** *** The quotient of a positive size by itself *)

Lemma Qle_bool_ratio_self (n : nat) (t : Q) :
  n ≠ 0%nat →
  Qle_bool t (inject_Z (Z.of_nat n) / inject_Z (Z.of_nat n)) = true
  ↔ (t <= 1)%Q.
Proof.
  intros Hn. rewrite Qle_bool_iff.
  assert (inject_Z (Z.of_nat n) / inject_Z (Z.of_nat n) == 1)%Q as ->; [|done].
  apply Qmult_inv_r. unfold Qeq. simpl. lia.
Qed.

(** A signature is similar to itself exactly when it has a word and the
    threshold is at most one. *)
Lemma matchSignatures_self s t :
  matchSignatures toLowerCase s s t = true
  ↔ words toLowerCase s ≠ ∅ ∧ (t <= 1)%Q.
Proof.
  rewrite matchSignatures_jaccard, orb_diag.
  destruct (size (words toLowerCase s) =? 0)%nat eqn:Hsz.
  - apply size_words_zero in Hsz. split; [done|]. by intros [? _].
  - assert (words toLowerCase s ≠ ∅) as Hne.
    { intros H. apply size_words_zero in H. congruence. }
    replace (words toLowerCase s ∩ words toLowerCase s)
      with (words toLowerCase s) by (by rewrite (idemp_L (∩))).
    replace (words toLowerCase s ∪ words toLowerCase s)
      with (words toLowerCase s) by (by rewrite (idemp_L (∪))).
    rewrite Qle_bool_ratio_self.
    + tauto.
    + intros H0. apply Hne, size_words_zero. by rewrite H0.
Qed.

(** *** Signatures *)

Lemma createErrorSignature_parts (errorInfo : ErrorInfo) :
  createErrorSignature errorInfo
  = join separator
      (present (errorType errorInfo)
       ++ map (fun m => take 120 (replaceDigits placeholder m))
              (present (errorMessage errorInfo))
       ++ present (testName errorInfo)).
Proof.
  unfold createErrorSignature, present, push, slice0.
  by destruct (errorType errorInfo) as [[|? ?]|],
              (errorMessage errorInfo) as [[|? ?]|],
              (testName errorInfo) as [[|? ?]|].
Qed.

Lemma last_digit_default (l : jsstring) x b b' :
  from_option isDigit b (last (x :: l))
  = from_option isDigit b' (last (x :: l)).
Proof.
  revert x. induction l as [|y l IH]; intros x; [reflexivity|].
  rewrite last_cons_cons. apply IH.
Qed.

(** The state of the digit scan after a prefix: whether the prefix ends
    in a digit. *)
Lemma replaceDigits_go_app b r (pre s : jsstring) :
  replaceDigits_go b r (pre ++ s)
  = replaceDigits_go b r pre
    ++ replaceDigits_go (from_option isDigit b (last pre)) r s.
Proof.
  revert b. induction pre as [|c pre IH]; intros b; [reflexivity|].
  cbn [app replaceDigits_go].
  assert (from_option isDigit b (last (c :: pre))
          = from_option isDigit (isDigit c) (last pre)) as ->.
  { destruct pre; [reflexivity|].
    rewrite last_cons_cons. apply last_digit_default. }
  destruct (isDigit c) eqn:Hc.
  - destruct b; rewrite IH; [reflexivity|]. by rewrite <- app_assoc.
  - by rewrite IH.
Qed.

Lemma replaceDigits_go_run r (run post : jsstring) :
  Forall (fun c => isDigit c = true) run →
  from_option isDigit false (head post) = false →
  replaceDigits_go true r (run ++ post) = replaceDigits_go false r post.
Proof.
  intros Hrun Hpost. induction Hrun as [|d run Hd _ IH].
  - destruct post as [|c post]; [reflexivity|].
    simpl in *. by rewrite Hpost.
  - simpl. by rewrite Hd.
Qed.

(** Every maximal run of digits becomes one placeholder. *)
Lemma replaceDigits_run r (pre run post : jsstring) :
  run ≠ [] →
  Forall (fun c => isDigit c = true) run →
  from_option isDigit false (last pre) = false →
  from_option isDigit false (head post) = false →
  replaceDigits r (pre ++ run ++ post)
  = replaceDigits r pre ++ r ++ replaceDigits r post.
Proof.
  intros Hne Hrun Hpre Hpost. unfold replaceDigits.
  rewrite replaceDigits_go_app, Hpre. f_equal.
  destruct Hrun as [|d run Hd Hrun]; [done|].
  cbn [app replaceDigits_go]. rewrite Hd. f_equal.
  by apply replaceDigits_go_run.
Qed.

(** A string without digits is left as it is. *)
Lemma replaceDigits_none r (s : jsstring) :
  Forall (fun c => isDigit c = false) s → replaceDigits r s = s.
Proof.
  unfold replaceDigits. induction 1 as [|c s Hc _ IH]; [reflexivity|].
  simpl. by rewrite Hc, IH.
Qed.

Lemma join_blank sep (xs : list jsstring) x :
  x ∈ xs →
  forallb isWhiteSpace (join sep xs) = true →
  forallb isWhiteSpace x = true.
Proof.
  induction xs as [|y xs IH]; intros Hx; [by apply elem_of_nil in Hx|].
  destruct xs as [|z xs].
  - apply list_elem_of_singleton in Hx as ->. done.
  - rewrite join_cons2, !forallb_app, !andb_true_iff.
    intros (Hy & _ & Hrest).
    apply elem_of_cons in Hx as [->|Hx]; [done|]. by apply IH.
Qed.

(** *** Lookup *)

Variable JSON_parse : jsstring -> option Value.
Variable ToString : Value -> Completion jsstring.

Lemma Get_own (v : Value) (k : jsstring) :
  v ≠ VNull → Get v k = Normal (own v k).
Proof. by destruct v. Qed.

Lemma createErrorSignature_value_null :
  createErrorSignature_value ToString VNull = Throw.
Proof. reflexivity. Qed.

Lemma createErrorSignature_value_not_null (v : Value) (sig : jsstring) :
  createErrorSignature_value ToString v = Normal sig → v ≠ VNull.
Proof. by intros H ->. Qed.


Lemma own_valueOf (record : ErrorInfo) :
  own (valueOf record) (lit "errorType") = VString <$> errorType record
  ∧ own (valueOf record) (lit "errorMessage")
    = VString <$> errorMessage record
  ∧ own (valueOf record) (lit "testName") = VString <$> testName record
  ∧ own (valueOf record) (lit "rootCause") = VString <$> rootCause record
  ∧ own (valueOf record) (lit "solution") = VString <$> solution record
  ∧ own (valueOf record) (lit "prevention") = VString <$> prevention record
  ∧ own (valueOf record) (lit "lesson") = VString <$> lesson record
  ∧ own (valueOf record) (lit "timestamp") = VString <$> timestamp record.
Proof. repeat split. Qed.

(** On a record of the declared type the signature is the typed one. *)
Lemma createErrorSignature_value_typed (record : ErrorInfo) :
  createErrorSignature_value ToString (valueOf record)
  = Normal (createErrorSignature record).
Proof.
  destruct (own_valueOf record) as (Hty & Hmsg & Hname & _).
  unfold createErrorSignature_value.
  rewrite !Get_own by done. cbn [bind]. rewrite Hty, Hmsg, Hname.
  unfold createErrorSignature, pushValue, push.
  destruct (errorType record) as [[|c1 s1]|],
           (errorMessage record) as [[|c2 s2]|],
           (testName record) as [[|c3 s3]|]; reflexivity.
Qed.

(** A line the scan passes over: blank, rejected by the parser, or
    holding a value whose signature is not similar to the query's. *)
Lemma lookupLoop_pass querySig line rest :
  isEmpty (trim line) = true
  ∨ JSON_parse (trim line) = None
  ∨ (∃ record recordSig,
       JSON_parse (trim line) = Some record
       ∧ createErrorSignature_value ToString record = Normal recordSig
       ∧ matchSignatures toLowerCase querySig recordSig defaultThreshold
         = false) →
  lookupLoop toLowerCase JSON_parse ToString querySig (line :: rest)
  = lookupLoop toLowerCase JSON_parse ToString querySig rest.
Proof.
  cbn [lookupLoop]. intros [Hb|[Hp|(record & recordSig & Hp & Hs & Hm)]].
  - by rewrite Hb.
  - rewrite Hp. by destruct (isEmpty _).
  - rewrite Hp, Hs. cbn [bind]. rewrite Hm. by destruct (isEmpty _).
Qed.

Lemma lookupLoop_passed querySig pre rest :
  Forall (fun line =>
            isEmpty (trim line) = true
            ∨ JSON_parse (trim line) = None
            ∨ (∃ record recordSig,
                 JSON_parse (trim line) = Some record
                 ∧ createErrorSignature_value ToString record
                   = Normal recordSig
                 ∧ matchSignatures toLowerCase querySig recordSig
                     defaultThreshold = false)) pre →
  lookupLoop toLowerCase JSON_parse ToString querySig (pre ++ rest)
  = lookupLoop toLowerCase JSON_parse ToString querySig rest.
Proof.
  induction 1 as [|line pre Hline _ IH]; [reflexivity|].
  cbn [app]. by rewrite lookupLoop_pass.
Qed.

Lemma lookupLoop_hit querySig line rest record recordSig :
  isEmpty (trim line) = false →
  JSON_parse (trim line) = Some record →
  createErrorSignature_value ToString record = Normal recordSig →
  matchSignatures toLowerCase querySig recordSig defaultThreshold = true →
  lookupLoop toLowerCase JSON_parse ToString querySig (line :: rest)
  = Normal {| found := true;
              found_solution :=
                Some {| sol_rootCause := own record (lit "rootCause");
                        sol_solution := own record (lit "solution");
                        sol_prevention := own record (lit "prevention");
                        sol_lesson := own record (lit "lesson");
                        sol_timestamp := own record (lit "timestamp") |} |}.
Proof.
  intros Hb Hp Hs Hm. cbn [lookupLoop]. rewrite Hb, Hp, Hs. cbn [bind].
  rewrite Hm. apply createErrorSignature_value_not_null in Hs.
  by rewrite !Get_own.
Qed.

Lemma lookupLoop_throw querySig line rest record :
  isEmpty (trim line) = false →
  JSON_parse (trim line) = Some record →
  createErrorSignature_value ToString record = Throw →
  lookupLoop toLowerCase JSON_parse ToString querySig (line :: rest) = Throw.
Proof.
  intros Hb Hp Hs. cbn [lookupLoop]. by rewrite Hb, Hp, Hs.
Qed.


Section CaseMapping.

(** The case mapping turns no character into white space and no white
    space into a character. *)
Hypothesis toLowerCase_blank :
  ∀ s, forallb isWhiteSpace (toLowerCase s) = forallb isWhiteSpace s.

Lemma words_nonempty_iff s :
  words toLowerCase s ≠ ∅
  ↔ filter (fun w => isEmpty w = false) (splitWs s) ≠ [].
Proof.
  by rewrite words_empty_iff, !tokens_nil_iff, toLowerCase_blank.
Qed.

Lemma signature_has_word errorInfo m :
  errorMessage errorInfo = Some m →
  forallb isWhiteSpace (take 120 (replaceDigits placeholder m)) = false →
  words toLowerCase (createErrorSignature errorInfo) ≠ ∅.
Proof.
  intros Hm Hnb. rewrite words_nonempty_iff, tokens_nil_iff.
  intros Hblank. rewrite createErrorSignature_parts in Hblank.
  eapply join_blank in Hblank.
  - by rewrite Hnb in Hblank.
  - rewrite Hm. destruct m as [|c m]; [done|].
    apply elem_of_app. right. apply elem_of_app. left. by left.
Qed.

(** C6: the signature is the present fields joined by the separator,
    the message with every maximal run of digits replaced by one
    placeholder and then cut to its first 120 code units; two records
    with the same [errorType] and [testName] whose messages are
    "Expected 5, got 3" and "Expected 12, got 7" have signatures that
    match at the default threshold. *)
Theorem signature_normalises_numbers (ty name : option jsstring) :
  (∀ errorInfo,
     createErrorSignature errorInfo
     = join separator
         (present (errorType errorInfo)
          ++ map (fun m => take 120 (replaceDigits placeholder m))
                 (present (errorMessage errorInfo))
          ++ present (testName errorInfo)))
  ∧ (∀ pre run post : jsstring,
       run ≠ [] →
       Forall (fun c => isDigit c = true) run →
       from_option isDigit false (last pre) = false →
       from_option isDigit false (head post) = false →
       replaceDigits placeholder (pre ++ run ++ post)
       = replaceDigits placeholder pre ++ placeholder
         ++ replaceDigits placeholder post)
  ∧ (∀ s : jsstring,
       Forall (fun c => isDigit c = false) s →
       replaceDigits placeholder s = s)
  ∧ matchSignatures toLowerCase
      (createErrorSignature
         (errorOf ty (Some (lit "Expected 5, got 3")) name))
      (createErrorSignature
         (errorOf ty (Some (lit "Expected 12, got 7")) name))
      defaultThreshold
    = true.
Proof.
  split; [apply createErrorSignature_parts|].
  split; [apply replaceDigits_run|]. split; [apply replaceDigits_none|].
  assert (∀ m, m ≠ [] →
               createErrorSignature (errorOf ty (Some m) name)
               = join separator
                   (present ty ++ [take 120 (replaceDigits placeholder m)]
                    ++ present name)) as Hsig.
  { intros [|c m] Hm; [done|]. by rewrite createErrorSignature_parts. }
  rewrite !Hsig by (by vm_compute).
  assert (take 120 (replaceDigits placeholder (lit "Expected 12, got 7"))
          = take 120 (replaceDigits placeholder (lit "Expected 5, got 3")))
    as -> by (by vm_compute).
  rewrite <- Hsig by (by vm_compute).
  apply matchSignatures_self. split; [|done].
  eapply signature_has_word; [reflexivity|]. by vm_compute.
Qed.

(** C10 as the code has it: a signature is similar to itself exactly when
    splitting it at white space gives at least one non-empty token and
    the threshold is at most one; a signature without a token, be it
    the empty signature of a record with none of the three fields or a
    signature made of white space only, is similar to nothing, itself
    included; hence a query with the signature fields of a stored
    record of the declared type matches that record as soon as the
    signature has a token. *)
Theorem matchSignatures_reflexive (s : jsstring) (t : Q) :
  (matchSignatures toLowerCase s s t = true
   ↔ filter (fun w => isEmpty w = false) (splitWs s) ≠ [] ∧ (t <= 1)%Q)
  ∧ (filter (fun w => isEmpty w = false) (splitWs s) = [] →
     matchSignatures toLowerCase s s t = false)
  ∧ createErrorSignature (errorOf None None None) = []
  ∧ matchSignatures toLowerCase
      (createErrorSignature (errorOf None None None))
      (createErrorSignature (errorOf None None None)) t
    = false
  ∧ (forallb isWhiteSpace s = true →
     matchSignatures toLowerCase s s t = false)
  ∧ (∀ query record : ErrorInfo,
       errorType record = errorType query →
       errorMessage record = errorMessage query →
       testName record = testName query →
       filter (fun w => isEmpty w = false)
              (splitWs (createErrorSignature query)) ≠ [] →
       matchSignatures toLowerCase (createErrorSignature query)
         (createErrorSignature record) defaultThreshold = true).
Proof.
  assert (matchSignatures toLowerCase s s t = true
          ↔ filter (fun w => isEmpty w = false) (splitWs s) ≠ []
            ∧ (t <= 1)%Q) as Hiff.
  { by rewrite matchSignatures_self, words_nonempty_iff. }
  assert (∀ s', filter (fun w => isEmpty w = false) (splitWs s') = [] →
                matchSignatures toLowerCase s' s' t = false) as Hdeg.
  { intros s' Hs'.
    destruct (matchSignatures toLowerCase s' s' t) eqn:Hm; [|done].
    apply matchSignatures_self in Hm as [Hw _].
    by apply words_nonempty_iff in Hw. }
  split; [exact Hiff|]. split; [apply Hdeg|]. split; [reflexivity|].
  split; [by apply Hdeg|]. split.
  { intros Hblank. apply Hdeg. by apply tokens_nil_iff. }
  intros query record Hty Hmsg Hname Htok.
  assert (createErrorSignature record = createErrorSignature query) as Hsig.
  { rewrite !createErrorSignature_parts. by rewrite Hty, Hmsg, Hname. }
  rewrite Hsig. apply matchSignatures_self.
  split; [by apply words_nonempty_iff|done].
Qed.

End CaseMapping.

End ReflexionFacts.

(** *** Closed instances of the reflexion properties *)



Lemma isWhiteSpace_printable c :
  0x21 <= c → c <= 0x7E → isWhiteSpace c = false.
Proof.
  intros Hlo Hhi. unfold isWhiteSpace.
  repeat (apply orb_false_intro);
    try (apply N.eqb_neq; lia).
  - apply andb_false_iff. right. apply N.leb_gt. lia.
  - apply andb_false_iff. left. apply N.leb_gt. lia.
Qed.

(** ASCII case folding meets the assumption made on the case mapping. *)
Lemma asciiLower_blank s :
  forallb isWhiteSpace (asciiLower s) = forallb isWhiteSpace s.
Proof.
  induction s as [|c s IH]; [reflexivity|].
  cbn [asciiLower map forallb]. fold (asciiLower s). rewrite IH. f_equal.
  destruct ((0x41 <=? c) && (c <=? 0x5A)) eqn:Hc; [|reflexivity].
  apply andb_true_iff in Hc as [Hlo Hhi].
  apply N.leb_le in Hlo, Hhi.
  by rewrite !isWhiteSpace_printable by lia.
Qed.

(** C6, instance of [signature_normalises_numbers]. *)
Lemma signature_normalises_numbers_witness :
  (∀ s, forallb isWhiteSpace (asciiLower s) = forallb isWhiteSpace s)
  ∧ createErrorSignature sampleQuery
    = lit "AssertionError | Expected N, got N | test_calc"
  ∧ matchSignatures asciiLower
      (createErrorSignature
         (errorOf (Some (lit "AssertionError"))
                  (Some (lit "Expected 5, got 3"))
                  (Some (lit "test_calc"))))
      (createErrorSignature
         (errorOf (Some (lit "AssertionError"))
                  (Some (lit "Expected 12, got 7"))
                  (Some (lit "test_calc"))))
      defaultThreshold
    = true.
Proof.
  split; [exact asciiLower_blank|]. split; [by vm_compute|].
  exact (proj2 (proj2 (proj2
           (signature_normalises_numbers asciiLower asciiLower_blank
              (Some (lit "AssertionError")) (Some (lit "test_calc")))))).
Defined.

(** C10, instance of [matchSignatures_reflexive]. *)
Lemma matchSignatures_reflexive_witness :
  (∀ s, forallb isWhiteSpace (asciiLower s) = forallb isWhiteSpace s)
  ∧ matchSignatures asciiLower (createErrorSignature sampleQuery)
      (createErrorSignature sampleQuery) defaultThreshold = true
  ∧ matchSignatures asciiLower (createErrorSignature sampleQuery)
      (createErrorSignature sampleRecord) defaultThreshold = true.
Proof.
  split; [exact asciiLower_blank|].
  destruct (matchSignatures_reflexive asciiLower asciiLower_blank
              (createErrorSignature sampleQuery) defaultThreshold)
    as (Hiff & _ & _ & _ & _ & Hstored).
  assert (filter (fun w => isEmpty w = false)
                 (splitWs (createErrorSignature sampleQuery)) ≠ []) as Htok.
  { by vm_compute. }
  split.
  - apply Hiff. split; [exact Htok|]. unfold Qle. simpl. lia.
  - apply (Hstored sampleQuery sampleRecord); [reflexivity..|exact Htok].
Defined.

(** C10, counterexample: the record whose only field is
    an [errorType] of one space has a signature that is not empty, and
    that signature is not similar to itself. *)
Lemma white_space_signature_does_not_match :
  createErrorSignature (errorOf (Some (lit " ")) None None) = lit " "
  ∧ createErrorSignature (errorOf (Some (lit " ")) None None) ≠ []
  ∧ matchSignatures asciiLower
      (createErrorSignature (errorOf (Some (lit " ")) None None))
      (createErrorSignature (errorOf (Some (lit " ")) None None))
      defaultThreshold
    = false.
Proof. repeat split; by vm_compute. Qed.

(** ** Scenarios of the specification, run on the embedding *)

Example scenario_complete_claim_passes :
  passed (selfCheck asciiLower passingClaim) = true
  ∧ issues (selfCheck asciiLower passingClaim) = [].
Proof. split; by vm_compute. Qed.

Example scenario_failing_claim_flagged :
  issues (selfCheck asciiLower failingCompleteClaim)
  = [msgTestsNotPassing;
     lit "❌ Missing evidence: testResults, codeChanges, validation";
     hallucinationPrefix ++ flagNoEvidence;
     hallucinationPrefix ++ flagFailingTests].
Proof. by vm_compute. Qed.

Example scenario_similar_signatures :
  matchSignatures asciiLower
    (lit "AssertionError | Expected N got N | test_calculation")
    (lit "AssertionError | Expected N got N | test_math")
    defaultThreshold
  = true.
Proof. by vm_compute. Qed.

Example scenario_empty_log :
  lookupSolution asciiLower sampleParse plainToString sampleQuery []
  = Normal {| found := false; found_solution := None |}.
Proof. reflexivity. Qed.

(** * Further properties of the three skills *)

(** ** Strings: substrings and joined arrays *)

Section SubstringFacts.

Lemma startsWith_prefix (s p : jsstring) :
  startsWith s p = true ↔ ∃ r, s = p ++ r.
Proof.
  revert s. induction p as [|a p IH]; intros s.
  - split; [intros _; by exists s|]. by destruct s.
  - destruct s as [|b s]; simpl.
    + split; [done|]. by intros [r ?].
    + rewrite andb_true_iff, N.eqb_eq, IH. split.
      * intros [-> [r ->]]. eauto.
      * intros [r [= -> ->]]. eauto.
Qed.

(** [s.includes(w)] holds exactly when [w] occurs in [s]. *)
Lemma includes_infix (s w : jsstring) :
  includes s w = true ↔ ∃ l r, s = l ++ w ++ r.
Proof.
  induction s as [|c s IH]; cbn [includes].
  - rewrite orb_false_r, startsWith_prefix. split.
    + intros [r Hr]. exists [], r. done.
    + intros (l & r & H). symmetry in H.
      apply app_eq_nil in H as [-> H]. apply app_eq_nil in H as [-> ->].
      by exists [].
  - rewrite orb_true_iff, startsWith_prefix, IH. split.
    + intros [[r Hr]|(l & r & ->)].
      * exists [], r. done.
      * exists (c :: l), r. done.
    + intros ([|d l] & r & H).
      * left. eauto.
      * right. injection H as -> ->. eauto.
Qed.

Lemma includes_blank (s w : jsstring) :
  includes s w = true →
  forallb isWhiteSpace s = true → forallb isWhiteSpace w = true.
Proof.
  rewrite includes_infix. intros (l & r & ->).
  rewrite !forallb_app, !andb_true_iff. tauto.
Qed.

Lemma includes_app (l x r : jsstring) : includes (l ++ x ++ r) x = true.
Proof. apply includes_infix. eauto. Qed.

Lemma join_elem_infix sep (xs : list jsstring) x :
  x ∈ xs → ∃ l r, join sep xs = l ++ x ++ r.
Proof.
  induction xs as [|y xs IH]; intros Hx; [by apply elem_of_nil in Hx|].
  destruct xs as [|z xs].
  - apply list_elem_of_singleton in Hx as ->. exists [], [].
    by rewrite app_nil_r.
  - rewrite join_cons2. apply elem_of_cons in Hx as [->|Hx].
    + by exists [], (sep ++ join sep (z :: xs)).
    + destruct (IH Hx) as (l & r & ->). exists (y ++ sep ++ l), r.
      by rewrite <- !app_assoc.
Qed.

(** Every part of an element of a joined array occurs in the result. *)
Lemma join_includes sep (xs : list jsstring) (p x q : jsstring) :
  p ++ x ++ q ∈ xs → includes (join sep xs) x = true.
Proof.
  intros Hin. destruct (join_elem_infix sep xs _ Hin) as (l & r & ->).
  apply includes_infix. exists (l ++ p), (q ++ r).
  by rewrite <- !app_assoc.
Qed.

Lemma join_snoc sep (xs : list jsstring) (y : jsstring) :
  xs ≠ [] → join sep (xs ++ [y]) = join sep xs ++ sep ++ y.
Proof.
  induction xs as [|x xs IH]; [done|]. intros _.
  destruct xs as [|z xs]; [reflexivity|].
  cbn [app]. rewrite !join_cons2. cbn [app] in IH. rewrite IH by done.
  by rewrite <- !app_assoc.
Qed.

End SubstringFacts.

(** ** Self check: the questions and the flags one by one *)

Section SelfCheckMore.

Variable toLowerCase : jsstring -> jsstring.

Lemma strictEq_true o s : strictEq o s = true ↔ o = Some s.
Proof.
  destruct o as [x|]; simpl; [|done].
  rewrite bool_decide_eq_true. split; [by intros ->|by intros [= ->]].
Qed.

(** The scanner's result, flag by flag. *)
Lemma detectHallucinations_flags impl :
  detectHallucinations toLowerCase impl
  = (if testsPassed impl && negb (truthy (testOutput impl))
     then [flagNoOutput] else [])
    ++ (if strictEq (status impl) complete
           && negb (bool_decide (is_Some (evidence impl)))
        then [flagNoEvidence] else [])
    ++ (if strictEq (status impl) complete && negb (testsPassed impl)
        then [flagFailingTests] else [])
    ++ (if ((0 <? length (default [] (errors impl)))%nat
            || (0 <? length (default [] (warnings impl)))%nat)
           && strictEq (status impl) complete
        then [flagIgnored] else [])
    ++ (if (0 <? length
                   (filter (fun w => includes
                                       (toLowerCase
                                          (default [] (description impl))) w
                                     = true) UNCERTAINTY_WORDS))%nat
        then [uncertaintyFlag
                (filter (fun w => includes
                                    (toLowerCase
                                       (default [] (description impl))) w
                                  = true) UNCERTAINTY_WORDS)]
        else []).
Proof.
  unfold detectHallucinations, push, uncertaintyFlag. rewrite app_nil_l.
  set (cA := testsPassed impl && _).
  set (cB := strictEq _ _ && negb (bool_decide _)).
  set (cC := strictEq _ _ && negb (testsPassed impl)).
  set (cD := (_ || _) && strictEq _ _).
  set (found := filter _ UNCERTAINTY_WORDS).
  set (cE := (0 <? length found)%nat).
  destruct cA, cB, cC, cD, cE; by rewrite <- ?app_assoc, ?app_nil_r.
Qed.

Lemma flag_lengths :
  length flagNoOutput = 40%nat ∧ length flagNoEvidence = 38%nat
  ∧ length flagFailingTests = 39%nat ∧ length flagIgnored = 52%nat.
Proof. repeat split; by vm_compute. Qed.

Lemma uncertaintyFlag_head found : head (uncertaintyFlag found) = Some 0x55.
Proof. reflexivity. Qed.

Lemma elem_of_flag (b : bool) (f x : jsstring) :
  x ∈ (if b then [f] else []) ↔ b = true ∧ x = f.
Proof.
  destruct b.
  - rewrite list_elem_of_singleton. split; [done|by intros [_ ?]].
  - split; [intros H; by apply elem_of_nil in H|by intros [? _]].
Qed.

Lemma flags_distinct :
  flagNoOutput ≠ flagNoEvidence ∧ flagNoOutput ≠ flagFailingTests
  ∧ flagNoOutput ≠ flagIgnored ∧ flagNoEvidence ≠ flagFailingTests
  ∧ flagNoEvidence ≠ flagIgnored ∧ flagFailingTests ≠ flagIgnored.
Proof.
  repeat split; intros H; apply (f_equal length) in H;
    vm_compute in H; discriminate H.
Qed.

Lemma flag_not_uncertainty found :
  flagNoOutput ≠ uncertaintyFlag found
  ∧ flagNoEvidence ≠ uncertaintyFlag found
  ∧ flagFailingTests ≠ uncertaintyFlag found
  ∧ flagIgnored ≠ uncertaintyFlag found.
Proof.
  repeat split; intros H; apply (f_equal head) in H;
    rewrite uncertaintyFlag_head in H; vm_compute in H; discriminate H.
Qed.

Lemma flag_membership impl :
  (flagNoOutput ∈ detectHallucinations toLowerCase impl
   ↔ testsPassed impl && negb (truthy (testOutput impl)) = true)
  ∧ (flagNoEvidence ∈ detectHallucinations toLowerCase impl
     ↔ strictEq (status impl) complete
       && negb (bool_decide (is_Some (evidence impl))) = true)
  ∧ (flagFailingTests ∈ detectHallucinations toLowerCase impl
     ↔ strictEq (status impl) complete && negb (testsPassed impl) = true)
  ∧ (flagIgnored ∈ detectHallucinations toLowerCase impl
     ↔ ((0 <? length (default [] (errors impl)))%nat
        || (0 <? length (default [] (warnings impl)))%nat)
       && strictEq (status impl) complete = true).
Proof.
  rewrite detectHallucinations_flags.
  set (found := filter _ UNCERTAINTY_WORDS).
  destruct flags_distinct as (D1 & D2 & D3 & D4 & D5 & D6).
  destruct (flag_not_uncertainty found) as (U1 & U2 & U3 & U4).
  generalize dependent (uncertaintyFlag found). intros u U1 U2 U3 U4.
  generalize dependent flagNoOutput. generalize dependent flagNoEvidence.
  generalize dependent flagFailingTests. generalize dependent flagIgnored.
  intros fD fC fB D4 D5 D6 U2 U3 U4 fA D1 D2 D3 U1.
  repeat split; rewrite ?elem_of_app, ?elem_of_flag;
    try (intros [[? ?]|[[? ?]|[[? ?]|[[? ?]|[? ?]]]]]; congruence);
    intros ?; tauto.
Qed.

(** The tests question, case by case: failing tests are reported
    whatever the output; passing tests need an output that is not blank
    and that holds one of the passing indicators, compared in lower
    case. *)
Theorem checkTestsPassing_cases (impl : Implementation) :
  (testsPassed impl = false →
   checkTestsPassing toLowerCase impl = Some msgTestsNotPassing)
  ∧ (testsPassed impl = true →
     isEmpty (trim (default [] (testOutput impl))) = true →
     checkTestsPassing toLowerCase impl = Some msgNoOutput)
  ∧ (checkTestsPassing toLowerCase impl = None
     ↔ testsPassed impl = true
       ∧ ∃ out, testOutput impl = Some out
                ∧ isEmpty (trim out) = false
                ∧ ∃ ind, ind ∈ passingIndicators
                         ∧ includes (toLowerCase out) (toLowerCase ind)
                           = true)
  ∧ (checkTestsPassing toLowerCase impl = None
     ∨ checkTestsPassing toLowerCase impl = Some msgTestsNotPassing
     ∨ checkTestsPassing toLowerCase impl = Some msgNoOutput
     ∨ checkTestsPassing toLowerCase impl = Some msgNoIndicator).
Proof.
  unfold checkTestsPassing.
  generalize msgTestsNotPassing msgNoOutput msgNoIndicator. intros m1 m2 m3.
  destruct (testsPassed impl); cbn [negb].
  2: { split; [done|]. split; [done|]. split; [|by right; left].
       split; [done|]. by intros [? _]. }
  destruct (testOutput impl) as [out|]; cbn [default from_option id].
  2: { split; [done|]. split; [done|]. split; [|by right; right; left].
       split; [done|]. by intros (_ & ? & ? & _). }
  assert (isEmpty out || isEmpty (trim out) = isEmpty (trim out)) as ->.
  { by destruct out. }
  destruct (isEmpty (trim out)) eqn:Htrim.
  { split; [done|]. split; [done|]. split; [|by right; right; left].
    split; [done|]. intros (_ & out' & [= <-] & Hne & _). congruence. }
  destruct (existsb _ passingIndicators) eqn:Hex; cbn [negb].
  - split; [done|]. split; [done|]. split; [|by left].
    split; [intros _|done]. split; [done|]. exists out.
    split; [done|]. split; [done|].
    apply existsb_exists in Hex as (ind & Hin & Hinc).
    exists ind. split; [by apply list_elem_of_In|done].
  - split; [done|]. split; [done|]. split; [|by right; right; right].
    split; [done|]. intros (_ & out' & [= <-] & _ & ind & Hin & Hinc).
    assert (existsb (fun ind => includes (toLowerCase out) (toLowerCase ind))
                    passingIndicators = true) as Hex'.
    { apply existsb_exists. exists ind.
      split; [by apply list_elem_of_In|done]. }
    congruence.
Qed.

(** The assumptions question is the containment test of the
    requirements question, on [assumptions] and [assumptionsVerified]:
    it passes exactly when every assumption is verified, whatever the
    order and the repetitions, and otherwise lists the unverified ones in
    one issue. *)
Theorem assumptions_check_is_containment (impl : Implementation) :
  (checkAssumptionsVerified impl = None
   ↔ ∀ a, a ∈ default [] (assumptions impl)
          → a ∈ default [] (assumptionsVerified impl))
  ∧ (checkAssumptionsVerified impl = None
     ∨ checkAssumptionsVerified impl
       = Some (lit "❌ Unverified assumptions: "
               ++ join (lit ", ")
                    (filter (fun a => a ∉ default [] (assumptionsVerified impl))
                            (default [] (assumptions impl))))).
Proof.
  unfold checkAssumptionsVerified.
  set (A := default [] (assumptions impl)).
  set (V := default [] (assumptionsVerified impl)).
  assert (filter (fun a => a ∉ (list_to_set V : gset jsstring)) A
          = filter (fun a => a ∉ V) A) as ->.
  { apply list_filter_iff. intros a. by rewrite elem_of_list_to_set. }
  assert (filter (fun a => a ∉ V) A = [] ↔ ∀ a, a ∈ A → a ∈ V) as Hnil.
  { split.
    - intros Hf a Ha. destruct (decide (a ∈ V)) as [|Hn]; [done|].
      assert (a ∈ filter (fun a => a ∉ V) A) as Hin
        by (by apply list_elem_of_filter).
      rewrite Hf in Hin. by apply elem_of_nil in Hin.
    - intros Hall. destruct (filter (fun a => a ∉ V) A) as [|u l] eqn:Hf;
        [done|].
      assert (u ∈ filter (fun a => a ∉ V) A) as Hin by (rewrite Hf; left).
      apply list_elem_of_filter in Hin as [Hn Hu]. by specialize (Hall u Hu). }
  destruct A as [|a0 A']; cbn [length Nat.eqb].
  { split; [|by left]. split; [intros _ a Ha; by apply elem_of_nil in Ha|done]. }
  destruct (filter (fun a => a ∉ V) (a0 :: A')) as [|u l] eqn:Hf;
    cbn [length Nat.eqb].
  - split; [|by left]. split; [intros _; by apply Hnil|done].
  - split; [|by right]. split; [done|]. intros Hall.
    by apply Hnil in Hall.
Qed.

Lemma blankText_false o :
  blankText o = false ↔ ∃ t, o = Some t ∧ isEmpty (trim t) = false.
Proof.
  unfold blankText. destruct o as [[|c t]|]; simpl.
  - split; [done|]. by intros (t & [= <-] & ?).
  - split; [eauto|]. by intros (t' & [= <-] & ?).
  - split; [done|]. by intros (? & ? & _).
Qed.

(** The evidence question passes exactly when the evidence record is
    there with test results and a validation that are not blank and with
    at least one code change; a field is named in the issue exactly when
    it is missing, and the names keep the order testResults, codeChanges,
    validation. *)
Theorem evidence_check_complete (impl : Implementation) :
  (checkEvidenceExists impl = None
   ↔ ∃ ev, evidence impl = Some ev
           ∧ blankText (testResults ev) = false
           ∧ (∃ c cs, codeChanges ev = Some (c :: cs))
           ∧ blankText (validation ev) = false)
  ∧ (lit "testResults" ∈ missingEvidence impl
     ↔ blankText (testResults (default emptyEvidence (evidence impl))) = true)
  ∧ (lit "codeChanges" ∈ missingEvidence impl
     ↔ default [] (codeChanges (default emptyEvidence (evidence impl))) = [])
  ∧ (lit "validation" ∈ missingEvidence impl
     ↔ blankText (validation (default emptyEvidence (evidence impl))) = true)
  ∧ sublist (missingEvidence impl)
            [lit "testResults"; lit "codeChanges"; lit "validation"].
Proof.
  assert (lit "testResults" ≠ lit "codeChanges"
          ∧ lit "testResults" ≠ lit "validation"
          ∧ lit "codeChanges" ≠ lit "validation") as (N1 & N2 & N3).
  { repeat split; intros H; apply (f_equal head) in H; vm_compute in H;
      discriminate H. }
  unfold checkEvidenceExists, missingEvidence, push.
  generalize dependent (lit "testResults").
  generalize dependent (lit "codeChanges").
  generalize dependent (lit "validation").
  intros nv nc N3 nt N1 N2.
  set (ev := default emptyEvidence (evidence impl)).
  assert (match codeChanges ev with
          | Some l => (length l =? 0)%nat
          | None => true
          end = bool_decide (default [] (codeChanges ev) = [])) as ->.
  { by destruct (codeChanges ev) as [[|? ?]|]. }
  assert ((∃ ev0, evidence impl = Some ev0
                  ∧ blankText (testResults ev0) = false
                  ∧ (∃ c cs, codeChanges ev0 = Some (c :: cs))
                  ∧ blankText (validation ev0) = false)
          ↔ blankText (testResults ev) = false
            ∧ bool_decide (default [] (codeChanges ev) = []) = false
            ∧ blankText (validation ev) = false) as ->.
  { subst ev. destruct (evidence impl) as [ev0|]; cbn [default from_option id].
    - split.
      + intros (? & [= <-] & Ht & (c & cs & Hc) & Hv).
        rewrite Hc. done.
      + intros (Ht & Hc & Hv). exists ev0. repeat split; try done.
        destruct (codeChanges ev0) as [[|c cs]|]; try done. eauto.
    - split; [by intros (? & ? & _)|]. by intros (? & _). }
  rewrite bool_decide_eq_false.
  destruct (blankText (testResults ev)), (blankText (validation ev));
    case_bool_decide as Hc; cbn [app length Nat.eqb];
    rewrite ?elem_of_cons, ?elem_of_nil;
    repeat split; try tauto; try (intros; intuition congruence);
    try solve [repeat first [apply sublist_nil_l | apply sublist_skip
                            | apply sublist_cons]].
Qed.

Lemma nonempty_length (l : list jsstring) :
  (0 <? length l)%nat = true ↔ l ≠ [].
Proof. destruct l; simpl; [split; [done|congruence]|split; done]. Qed.

(** The three flags about completion are raised exactly under their
    conditions: no evidence record, failing tests, errors or warnings,
    each together with a status that is exactly "complete".  A claim
    with another status can only raise the no-output flag and the
    uncertainty flag; and no claim raises both the no-output flag and
    the failing-tests flag. *)
Theorem completion_flags (impl : Implementation) :
  (flagNoEvidence ∈ detectHallucinations toLowerCase impl
   ↔ status impl = Some complete ∧ evidence impl = None)
  ∧ (flagFailingTests ∈ detectHallucinations toLowerCase impl
     ↔ status impl = Some complete ∧ testsPassed impl = false)
  ∧ (flagIgnored ∈ detectHallucinations toLowerCase impl
     ↔ status impl = Some complete
       ∧ (default [] (errors impl) ≠ [] ∨ default [] (warnings impl) ≠ []))
  ∧ (status impl ≠ Some complete →
     ∀ f, f ∈ detectHallucinations toLowerCase impl →
          f = flagNoOutput
          ∨ f = uncertaintyFlag
                  (filter (fun w => includes
                                      (toLowerCase
                                         (default [] (description impl))) w
                                    = true) UNCERTAINTY_WORDS))
  ∧ ¬ (flagNoOutput ∈ detectHallucinations toLowerCase impl
       ∧ flagFailingTests ∈ detectHallucinations toLowerCase impl).
Proof.
  destruct (flag_membership impl) as (HA & HB & HC & HD).
  split; [|split; [|split; [|split]]].
  - rewrite HB, andb_true_iff, strictEq_true, negb_true_iff,
      bool_decide_eq_false.
    by rewrite <- eq_None_not_Some.
  - rewrite HC, andb_true_iff, strictEq_true, negb_true_iff. done.
  - rewrite HD, andb_true_iff, orb_true_iff, strictEq_true,
      !nonempty_length. tauto.
  - intros Hst f. rewrite detectHallucinations_flags.
    assert (strictEq (status impl) complete = false) as ->.
    { destruct (strictEq (status impl) complete) eqn:H; [|done].
      by apply strictEq_true in H. }
    rewrite andb_false_r. cbn [andb app].
    rewrite !elem_of_app, !elem_of_flag. intros [[_ ?]|[_ ?]]; eauto.
  - rewrite HA, HC, !andb_true_iff, !negb_true_iff.
    intros [[Ht _] [_ Hf]]. congruence.
Qed.

Lemma flag_implies_issue (impl : Implementation) :
  (flagNoOutput ∈ detectHallucinations toLowerCase impl →
   checkTestsPassing toLowerCase impl = Some msgNoOutput)
  ∧ (flagFailingTests ∈ detectHallucinations toLowerCase impl →
     checkTestsPassing toLowerCase impl = Some msgTestsNotPassing)
  ∧ (flagNoEvidence ∈ detectHallucinations toLowerCase impl →
     checkEvidenceExists impl
     = Some (lit "❌ Missing evidence: testResults, codeChanges, validation")).
Proof.
  destruct (flag_membership impl) as (HA & HB & HC & _).
  split; [|split].
  - rewrite HA, andb_true_iff, negb_true_iff. intros [Ht Ho].
    unfold checkTestsPassing. rewrite Ht. cbn [negb].
    by destruct (testOutput impl) as [[|? ?]|].
  - rewrite HC, andb_true_iff, negb_true_iff. intros [_ Ht].
    unfold checkTestsPassing. by rewrite Ht.
  - rewrite HB, andb_true_iff, negb_true_iff, bool_decide_eq_false.
    rewrite <- eq_None_not_Some. intros [_ He].
    unfold checkEvidenceExists, missingEvidence. rewrite He.
    by vm_compute.
Qed.

(** The first three flags never stand alone: a claim that raises the
    no-output flag fails the tests question for lack of output, one that
    raises the failing-tests flag fails it for failing tests, and one
    that raises the no-evidence flag fails the evidence question with
    all three fields missing. *)
Theorem flags_repeat_failed_questions (impl : Implementation) :
  (flagNoOutput ∈ detectHallucinations toLowerCase impl →
   checkTestsPassing toLowerCase impl = Some msgNoOutput)
  ∧ (flagFailingTests ∈ detectHallucinations toLowerCase impl →
     checkTestsPassing toLowerCase impl = Some msgTestsNotPassing)
  ∧ (flagNoEvidence ∈ detectHallucinations toLowerCase impl →
     checkEvidenceExists impl
     = Some (lit "❌ Missing evidence: testResults, codeChanges, validation")).
Proof. exact (flag_implies_issue impl). Qed.

(** The verdict is decided by the four questions, the
    errors-or-warnings flag and the uncertainty flag: a claim passes
    exactly when the four questions pass, it does not say "complete"
    while carrying errors or warnings, and its description, in lower
    case, holds none of the uncertainty phrases. *)
Theorem verdict_decided_by (impl : Implementation) :
  passed (selfCheck toLowerCase impl) = true
  ↔ checkTestsPassing toLowerCase impl = None
    ∧ checkRequirementsMet impl = None
    ∧ checkAssumptionsVerified impl = None
    ∧ checkEvidenceExists impl = None
    ∧ ¬ (status impl = Some complete
         ∧ (default [] (errors impl) ≠ [] ∨ default [] (warnings impl) ≠ []))
    ∧ Forall (fun w => includes (toLowerCase (default [] (description impl)))
                                w = false) UNCERTAINTY_WORDS.
Proof.
  assert (passed (selfCheck toLowerCase impl) = true
          ↔ issues (selfCheck toLowerCase impl) = []) as ->.
  { change (passed (selfCheck toLowerCase impl))
      with (length (issues (selfCheck toLowerCase impl)) =? 0)%nat.
    rewrite Nat.eqb_eq. by destruct (issues _). }
  rewrite selfCheck_issues. unfold fourCheckIssues.
  rewrite !app_nil.
  assert (∀ l : list jsstring,
            map (fun f => hallucinationPrefix ++ f) l = [] ↔ l = []) as ->
    by (by intros [|? ?]).
  assert (∀ q : option jsstring, option_list q = [] ↔ q = None) as Hq
    by (by intros [?|]).
  rewrite !Hq.
  pose proof (flag_implies_issue impl) as (FA & FC & FB).
  destruct (flag_membership impl) as (HA & HB & HC & HD).
  assert (Forall (fun w => includes (toLowerCase (default [] (description impl)))
                                    w = false) UNCERTAINTY_WORDS
          ↔ filter (fun w => includes
                               (toLowerCase (default [] (description impl))) w
                             = true) UNCERTAINTY_WORDS = []) as ->.
  { induction UNCERTAINTY_WORDS as [|w l IH]; [done|].
    rewrite Forall_cons, filter_cons, IH.
    destruct (includes _ w); simpl; [|tauto].
    split; [by intros [? _]|done]. }
  split.
  - intros ((Q1 & Q2 & Q3 & Q4) & Hflags). repeat split; try done.
    + intros Hd. assert (flagIgnored ∈ detectHallucinations toLowerCase impl)
        as Hin.
      { apply HD. rewrite andb_true_iff, orb_true_iff, strictEq_true,
          !nonempty_length. tauto. }
      rewrite Hflags in Hin. by apply elem_of_nil in Hin.
    + rewrite detectHallucinations_flags in Hflags.
      apply app_nil in Hflags as (_ & Hflags).
      apply app_nil in Hflags as (_ & Hflags).
      apply app_nil in Hflags as (_ & Hflags).
      apply app_nil in Hflags as (_ & Hflags).
      destruct (filter _ UNCERTAINTY_WORDS); [done|]. by simpl in Hflags.
  - intros (Q1 & Q2 & Q3 & Q4 & Hd & Hu). repeat split; try done.
    rewrite detectHallucinations_flags, Hu.
    change (0 <? length (@nil jsstring))%nat with false. cbv iota.
    rewrite app_nil_r.
    assert (testsPassed impl && negb (truthy (testOutput impl)) = false)
      as ->.
    { apply not_true_is_false. intros cA. apply HA, FA in cA. congruence. }
    assert (strictEq (status impl) complete
            && negb (bool_decide (is_Some (evidence impl))) = false) as ->.
    { apply not_true_is_false. intros cB. apply HB, FB in cB. congruence. }
    assert (strictEq (status impl) complete && negb (testsPassed impl)
            = false) as ->.
    { apply not_true_is_false. intros cC. apply HC, FC in cC. congruence. }
    assert (((0 <? length (default [] (errors impl)))%nat
             || (0 <? length (default [] (warnings impl)))%nat)
            && strictEq (status impl) complete = false) as ->; [|done].
    apply not_true_is_false. intros cD. apply Hd.
    rewrite andb_true_iff, orb_true_iff, strictEq_true,
      !nonempty_length in cD. tauto.
Qed.

(** The scanner never raises more than four flags, and a verdict never
    lists more than eight issues. *)
Theorem issues_bounded (impl : Implementation) :
  (length (detectHallucinations toLowerCase impl) ≤ 4)%nat
  ∧ (length (issues (selfCheck toLowerCase impl)) ≤ 8)%nat.
Proof.
  assert (length (detectHallucinations toLowerCase impl) ≤ 4)%nat as Hflags.
  { rewrite detectHallucinations_flags, !length_app.
    destruct (testsPassed impl); cbn [andb negb];
      rewrite ?andb_false_r; repeat case_match; simpl; lia. }
  split; [done|].
  rewrite selfCheck_issues. unfold fourCheckIssues.
  rewrite !length_app, length_map.
  assert (∀ q : option jsstring, (length (option_list q) ≤ 1)%nat) as Hq.
  { intros [?|]; simpl; lia. }
  pose proof (Hq (checkTestsPassing toLowerCase impl)).
  pose proof (Hq (checkRequirementsMet impl)).
  pose proof (Hq (checkAssumptionsVerified impl)).
  pose proof (Hq (checkEvidenceExists impl)).
  lia.
Qed.

Section CaseMappingOfDescriptions.

Hypothesis toLowerCase_blank :
  ∀ s, forallb isWhiteSpace (toLowerCase s) = forallb isWhiteSpace s.

(** The uncertainty flag is raised exactly when the description, in
    lower case, holds one of the six phrases, and it quotes every phrase
    found; a claim whose description is absent or blank never raises
    it. *)
Theorem uncertainty_flag (impl : Implementation) :
  (uncertaintyFlag
     (filter (fun w => includes (toLowerCase (default [] (description impl)))
                                w = true) UNCERTAINTY_WORDS)
   ∈ detectHallucinations toLowerCase impl
   ↔ ∃ w, w ∈ UNCERTAINTY_WORDS
          ∧ includes (toLowerCase (default [] (description impl))) w = true)
  ∧ (forallb isWhiteSpace (default [] (description impl)) = true →
     ∀ found, uncertaintyFlag found ∉ detectHallucinations toLowerCase impl).
Proof.
  set (desc := toLowerCase (default [] (description impl))).
  set (found := filter (fun w => includes desc w = true) UNCERTAINTY_WORDS).
  assert (∀ u, u ∈ detectHallucinations toLowerCase impl →
               (∃ f, u = uncertaintyFlag f) →
               u = uncertaintyFlag found ∧ found ≠ []) as Hu.
  { intros u. rewrite detectHallucinations_flags.
    fold desc. fold found. rewrite !elem_of_app, !elem_of_flag.
    intros Hin [f ->]. destruct (flag_not_uncertainty f) as (U1 & U2 & U3 & U4).
    destruct Hin as [[_ ?]|[[_ ?]|[[_ ?]|[[_ ?]|[Hne ?]]]]]; try congruence.
    split; [done|]. by apply nonempty_length. }
  assert (found ≠ [] ↔ ∃ w, w ∈ UNCERTAINTY_WORDS ∧ includes desc w = true)
    as Hfound.
  { subst found. split.
    - destruct (filter _ _) as [|w l] eqn:Hf; [done|]. intros _.
      assert (w ∈ filter (fun w => includes desc w = true) UNCERTAINTY_WORDS)
        as Hin by (rewrite Hf; left).
      apply list_elem_of_filter in Hin as [? ?]. eauto.
    - intros (w & Hw & Hinc) Hf.
      assert (w ∈ filter (fun w => includes desc w = true) UNCERTAINTY_WORDS)
        as Hin by (by apply list_elem_of_filter).
      rewrite Hf in Hin. by apply elem_of_nil in Hin. }
  split.
  - rewrite <- Hfound. split.
    + intros Hin. destruct (Hu _ Hin) as [_ ?]; eauto.
    + intros Hne. rewrite detectHallucinations_flags. fold desc. fold found.
      apply nonempty_length in Hne. rewrite Hne.
      rewrite !elem_of_app. do 4 right. by left.
  - intros Hblank f Hin.
    destruct (Hu _ Hin) as [_ Hne]; [eauto|].
    apply Hfound in Hne as (w & Hw & Hinc).
    apply includes_blank in Hinc.
    + assert (Forall (fun w => forallb isWhiteSpace w = false)
                     UNCERTAINTY_WORDS) as Hall.
      { repeat (apply Forall_cons; split; [by vm_compute|]).
        apply Forall_nil_2. }
      rewrite Forall_forall in Hall. specialize (Hall w Hw). congruence.
    + subst desc. by rewrite toLowerCase_blank.
Qed.

End CaseMappingOfDescriptions.

End SelfCheckMore.

(** ** Reflexion: similarity, lookup, recording *)

Section ReflexionMore.

Variable toLowerCase : jsstring -> jsstring.

Lemma ratio_le (a c : nat) (t : Q) :
  c ≠ 0%nat →
  (t <= inject_Z (Z.of_nat a) / inject_Z (Z.of_nat c))%Q
  ↔ (t * inject_Z (Z.of_nat c) <= inject_Z (Z.of_nat a))%Q.
Proof.
  intros Hc.
  assert (0 < inject_Z (Z.of_nat c))%Q as Hpos.
  { unfold Qlt. simpl. lia. }
  assert (¬ (inject_Z (Z.of_nat c) == 0)%Q) as Hne.
  { intros H. rewrite H in Hpos. by apply Qlt_irrefl in Hpos. }
  split.
  - intros H. apply (Qmult_le_r _ _ _ Hpos) in H.
    rewrite (Qmult_comm (_ / _)), Qmult_div_r in H; done.
  - intros H. by apply Qle_shift_div_l.
Qed.

Lemma words_size_pos s :
  words toLowerCase s ≠ ∅ ↔ size (words toLowerCase s) ≠ 0%nat.
Proof.
  rewrite <- (size_words_zero toLowerCase), Nat.eqb_eq. done.
Qed.

Lemma jaccard_test (sig1 sig2 : jsstring) (t : Q) :
  matchSignatures toLowerCase sig1 sig2 t = true
  ↔ words toLowerCase sig1 ≠ ∅
    ∧ words toLowerCase sig2 ≠ ∅
    ∧ (t * inject_Z (Z.of_nat (size (words toLowerCase sig1
                                      ∪ words toLowerCase sig2)))
       <= inject_Z (Z.of_nat (size (words toLowerCase sig1
                                    ∩ words toLowerCase sig2))))%Q.
Proof.
  rewrite matchSignatures_jaccard, !words_size_pos.
  destruct (size (words toLowerCase sig1) =? 0)%nat eqn:H1.
  { apply Nat.eqb_eq in H1. simpl. split; [done|]. by intros [? _]. }
  destruct (size (words toLowerCase sig2) =? 0)%nat eqn:H2.
  { apply Nat.eqb_eq in H2. simpl. split; [done|]. by intros (_ & ? & _). }
  apply Nat.eqb_neq in H1, H2. simpl.
  rewrite Qle_bool_iff, ratio_le; [tauto|].
  intros H0. apply size_empty_iff in H0. apply H1.
  apply size_empty_iff. set_solver.
Qed.

Lemma shared_le_all (X Y : gset jsstring) :
  (size (X ∩ Y) ≤ size (X ∪ Y))%nat.
Proof. apply subseteq_size. set_solver. Qed.

Lemma union_pos (X Y : gset jsstring) :
  X ≠ ∅ → (0 < inject_Z (Z.of_nat (size (X ∪ Y))))%Q.
Proof.
  intros HX. unfold Qlt. simpl.
  assert (size (X ∪ Y) ≠ 0%nat); [|lia].
  intros H0. apply size_empty_iff in H0. apply HX.
  apply set_eq. intros x. set_solver.
Qed.

Lemma inject_nat_le (a b : nat) :
  (inject_Z (Z.of_nat a) <= inject_Z (Z.of_nat b))%Q ↔ (a ≤ b)%nat.
Proof. unfold Qle. simpl. lia. Qed.

(** Lowering the threshold never loses a match; above one nothing
    matches; at zero or below every pair of signatures that both have a
    word matches. *)
Theorem matchSignatures_threshold (sig1 sig2 : jsstring) :
  (∀ t1 t2 : Q,
     (t1 <= t2)%Q →
     matchSignatures toLowerCase sig1 sig2 t2 = true →
     matchSignatures toLowerCase sig1 sig2 t1 = true)
  ∧ (∀ t : Q, (1 < t)%Q → matchSignatures toLowerCase sig1 sig2 t = false)
  ∧ (∀ t : Q,
       (t <= 0)%Q →
       (matchSignatures toLowerCase sig1 sig2 t = true
        ↔ words toLowerCase sig1 ≠ ∅ ∧ words toLowerCase sig2 ≠ ∅)).
Proof.
  set (X := words toLowerCase sig1). set (Y := words toLowerCase sig2).
  split; [|split].
  - intros t1 t2 Ht. rewrite !jaccard_test. fold X Y.
    intros (HX & HY & Hle). repeat split; try done.
    eapply Qle_trans; [|exact Hle].
    apply Qmult_le_compat_r; [done|]. apply Qlt_le_weak. by apply union_pos.
  - intros t Ht.
    destruct (matchSignatures toLowerCase sig1 sig2 t) eqn:Hm; [|done].
    apply jaccard_test in Hm as (HX & HY & Hle). fold X Y in HX, HY, Hle.
    exfalso. pose proof (union_pos X Y HX) as Hpos.
    pose proof (proj2 (inject_nat_le _ _) (shared_le_all X Y)) as Hsz.
    assert (1 * inject_Z (Z.of_nat (size (X ∪ Y)))
            < t * inject_Z (Z.of_nat (size (X ∪ Y))))%Q as Hlt.
    { by apply Qmult_lt_r. }
    rewrite Qmult_1_l in Hlt.
    apply (Qlt_irrefl (inject_Z (Z.of_nat (size (X ∪ Y))))).
    eapply Qlt_le_trans; [exact Hlt|]. eapply Qle_trans; [exact Hle|done].
  - intros t Ht. rewrite jaccard_test. fold X Y.
    split; [tauto|]. intros [HX HY]. repeat split; try done.
    apply Qle_trans with (y := 0%Q).
    + rewrite <- (Qmult_0_l (inject_Z (Z.of_nat (size (X ∪ Y))))).
      apply Qmult_le_compat_r; [done|].
      apply Qlt_le_weak. by apply union_pos.
    + unfold Qle. simpl. lia.
Qed.

(** At threshold one two signatures match exactly when they have the
    same words, whatever their order, repetition, case and spacing; and
    at any positive threshold two matching signatures share a word. *)
Theorem matchSignatures_same_words (sig1 sig2 : jsstring) :
  (matchSignatures toLowerCase sig1 sig2 1 = true
   ↔ words toLowerCase sig1 = words toLowerCase sig2
     ∧ words toLowerCase sig1 ≠ ∅)
  ∧ (∀ t : Q,
       (0 < t)%Q →
       matchSignatures toLowerCase sig1 sig2 t = true →
       ∃ w, w ∈ words toLowerCase sig1 ∧ w ∈ words toLowerCase sig2).
Proof.
  set (X := words toLowerCase sig1). set (Y := words toLowerCase sig2).
  split.
  - rewrite jaccard_test. fold X Y. rewrite Qmult_1_l, inject_nat_le. split.
    + intros (HX & HY & Hle). split; [|done].
      assert (X ∩ Y ≡ X ∪ Y) as Heq.
      { apply set_subseteq_size_equiv; [set_solver|done]. }
      apply set_eq. intros w. set_solver.
    + intros [Heq HX]. rewrite <- Heq. repeat split; try done.
      by rewrite (idemp_L (∪)), (idemp_L (∩)).
  - intros t Ht Hm. apply jaccard_test in Hm as (HX & HY & Hle).
    fold X Y in HX, HY, Hle.
    assert (size (X ∩ Y) ≠ 0%nat) as Hne.
    { intros H0. rewrite H0 in Hle.
      pose proof (union_pos X Y HX) as Hpos.
      assert (0 < t * inject_Z (Z.of_nat (size (X ∪ Y))))%Q as Hprod.
      { rewrite <- (Qmult_0_l (inject_Z (Z.of_nat (size (X ∪ Y))))).
        by apply Qmult_lt_r. }
      apply (Qlt_irrefl 0). eapply Qlt_le_trans; [exact Hprod|exact Hle]. }
    destruct (size_pos_elem_of (X ∩ Y)) as [w Hw]; [lia|].
    exists w. set_solver.
Qed.

(** *** Lookup *)

Variable JSON_parse : jsstring -> option Value.
Variable ToString : Value -> Completion jsstring.

Lemma lookupLoop_cases querySig lines :
  lookupLoop toLowerCase JSON_parse ToString querySig lines
  = Normal {| found := false; found_solution := None |}
  ∨ (∃ line record recordSig,
       line ∈ lines
       ∧ isEmpty (trim line) = false
       ∧ JSON_parse (trim line) = Some record
       ∧ createErrorSignature_value ToString record = Normal recordSig
       ∧ matchSignatures toLowerCase querySig recordSig defaultThreshold
         = true
       ∧ lookupLoop toLowerCase JSON_parse ToString querySig lines
         = Normal
             {| found := true;
                found_solution :=
                  Some {| sol_rootCause := own record (lit "rootCause");
                          sol_solution := own record (lit "solution");
                          sol_prevention := own record (lit "prevention");
                          sol_lesson := own record (lit "lesson");
                          sol_timestamp := own record (lit "timestamp") |} |})
  ∨ (∃ line record,
       line ∈ lines
       ∧ isEmpty (trim line) = false
       ∧ JSON_parse (trim line) = Some record
       ∧ createErrorSignature_value ToString record = Throw
       ∧ lookupLoop toLowerCase JSON_parse ToString querySig lines = Throw).
Proof.
  induction lines as [|line lines IH]; [by left|].
  match goal with
  | |- ?G =>
    assert (lookupLoop toLowerCase JSON_parse ToString querySig
              (line :: lines)
            = lookupLoop toLowerCase JSON_parse ToString querySig lines →
            G) as Hrest
  end.
  { intros Heq. rewrite Heq.
    destruct IH as [?|[(l & r & sg & ? & ? & ? & ? & ? & ?)
                      |(l & r & ? & ? & ? & ? & ?)]].
    - by left.
    - right; left. exists l, r, sg. repeat split; try done. by right.
    - right; right. exists l, r. repeat split; try done. by right. }
  destruct (isEmpty (trim line)) eqn:Hblank.
  { apply Hrest, lookupLoop_pass. by left. }
  destruct (JSON_parse (trim line)) as [record|] eqn:Hparse.
  2: { apply Hrest, lookupLoop_pass. right. by left. }
  destruct (createErrorSignature_value ToString record) as [recordSig|]
    eqn:Hsig.
  2: { right; right. exists line, record. repeat split; try done; [by left|].
       by apply (lookupLoop_throw _ _ _ _ _ _ record). }
  destruct (matchSignatures toLowerCase querySig recordSig defaultThreshold)
    eqn:Hm.
  - right; left. exists line, record, recordSig.
    repeat split; try done; [by left|].
    by apply (lookupLoop_hit _ _ _ _ _ _ record recordSig).
  - apply Hrest, lookupLoop_pass. right. right. by exists record, recordSig.
Qed.

(** The lookup never invents a solution.  Its outcome is one of three:
    no-match; a solution whose root cause, solution, prevention, lesson
    and timestamp are read from a value that a non-blank line of the log
    parses to and whose signature is similar to the query's at the
    default threshold; or the exception thrown by the signature of a
    value that a line of the log parses to.  In a result the flag
    [found] is set exactly when a solution is attached. *)
Theorem lookupSolution_result (errorInfo : ErrorInfo)
    (jsonlLines : list jsstring) :
  (lookupSolution toLowerCase JSON_parse ToString errorInfo jsonlLines
   = Normal {| found := false; found_solution := None |}
   ∨ (∃ line record recordSig,
        line ∈ jsonlLines
        ∧ isEmpty (trim line) = false
        ∧ JSON_parse (trim line) = Some record
        ∧ createErrorSignature_value ToString record = Normal recordSig
        ∧ matchSignatures toLowerCase (createErrorSignature errorInfo)
            recordSig defaultThreshold = true
        ∧ lookupSolution toLowerCase JSON_parse ToString errorInfo jsonlLines
          = Normal
              {| found := true;
                 found_solution :=
                   Some {| sol_rootCause := own record (lit "rootCause");
                           sol_solution := own record (lit "solution");
                           sol_prevention := own record (lit "prevention");
                           sol_lesson := own record (lit "lesson");
                           sol_timestamp :=
                             own record (lit "timestamp") |} |})
   ∨ (∃ line record,
        line ∈ jsonlLines
        ∧ isEmpty (trim line) = false
        ∧ JSON_parse (trim line) = Some record
        ∧ createErrorSignature_value ToString record = Throw
        ∧ lookupSolution toLowerCase JSON_parse ToString errorInfo jsonlLines
          = Throw))
  ∧ (∀ result,
       lookupSolution toLowerCase JSON_parse ToString errorInfo jsonlLines
       = Normal result →
       (found result = true ↔ is_Some (found_solution result))).
Proof.
  unfold lookupSolution.
  pose proof (lookupLoop_cases (createErrorSignature errorInfo) jsonlLines)
    as Hcases.
  split; [exact Hcases|]. intros result Hres.
  destruct Hcases as [Hnone|[(l & r & sg & _ & _ & _ & _ & _ & Hfound)
                            |(l & r & _ & _ & _ & _ & Hthrow)]].
  - rewrite Hnone in Hres. injection Hres as <-. cbn [found found_solution].
    split; [done|]. by intros [? ?].
  - rewrite Hfound in Hres. injection Hres as <-. cbn [found found_solution].
    split; [eauto|done].
  - by rewrite Hthrow in Hres.
Qed.

Lemma lookupLoop_app querySig (lines1 lines2 : list jsstring) :
  lookupLoop toLowerCase JSON_parse ToString querySig (lines1 ++ lines2)
  = match lookupLoop toLowerCase JSON_parse ToString querySig lines1 with
    | Normal result =>
      if found result then Normal result
      else lookupLoop toLowerCase JSON_parse ToString querySig lines2
    | Throw => Throw
    end.
Proof.
  induction lines1 as [|line lines1 IH]; [reflexivity|].
  cbn [app].
  destruct (isEmpty (trim line)) eqn:Hblank.
  { rewrite !(lookupLoop_pass _ _ _ _ line) by (by left). exact IH. }
  destruct (JSON_parse (trim line)) as [record|] eqn:Hparse.
  2: { rewrite !(lookupLoop_pass _ _ _ _ line) by (right; by left).
       exact IH. }
  destruct (createErrorSignature_value ToString record) as [recordSig|]
    eqn:Hsig.
  2: { by rewrite !(lookupLoop_throw _ _ _ _ line _ record). }
  destruct (matchSignatures toLowerCase querySig recordSig defaultThreshold)
    eqn:Hm.
  - by rewrite !(lookupLoop_hit _ _ _ _ line _ record recordSig).
  - rewrite !(lookupLoop_pass _ _ _ _ line)
      by (right; right; by exists record, recordSig).
    exact IH.
Qed.

(** Looking up in two logs put end to end is looking up in the first
    and, only when that returns no-match, in the second: lines added
    after a match never change the answer, and neither do lines added
    after a line on which the lookup throws. *)
Theorem lookupSolution_app (errorInfo : ErrorInfo)
    (lines1 lines2 : list jsstring) :
  lookupSolution toLowerCase JSON_parse ToString errorInfo (lines1 ++ lines2)
  = match lookupSolution toLowerCase JSON_parse ToString errorInfo lines1 with
    | Normal result =>
      if found result then Normal result
      else lookupSolution toLowerCase JSON_parse ToString errorInfo lines2
    | Throw => Throw
    end.
Proof. apply lookupLoop_app. Qed.

(** A query whose signature has no word matches no line. *)
Lemma lookupLoop_no_word querySig lines :
  words toLowerCase querySig = ∅ →
  (∀ result,
     lookupLoop toLowerCase JSON_parse ToString querySig lines
     = Normal result →
     result = {| found := false; found_solution := None |})
  ∧ (Forall (fun line =>
               ∀ record,
                 isEmpty (trim line) = false →
                 JSON_parse (trim line) = Some record →
                 createErrorSignature_value ToString record ≠ Throw)
            lines →
     lookupLoop toLowerCase JSON_parse ToString querySig lines
     = Normal {| found := false; found_solution := None |}).
Proof.
  intros Hw.
  assert (∀ recordSig,
            matchSignatures toLowerCase querySig recordSig defaultThreshold
            = false) as Hno.
  { intros recordSig. unfold matchSignatures. by rewrite Hw. }
  split.
  - intros result Hres.
    destruct (lookupLoop_cases querySig lines)
      as [Hnone|[(l & r & sg & _ & _ & _ & _ & Hm & _)
                |(l & r & _ & _ & _ & _ & Hthrow)]].
    + rewrite Hnone in Hres. by injection Hres.
    + by rewrite Hno in Hm.
    + by rewrite Hthrow in Hres.
  - intros Hall.
    rewrite <- (app_nil_r lines).
    rewrite (lookupLoop_passed toLowerCase JSON_parse ToString); [done|].
    eapply Forall_impl; [exact Hall|]. intros line Hline. cbv beta in Hline.
    destruct (isEmpty (trim line)) eqn:Hblank; [by left|].
    destruct (JSON_parse (trim line)) as [record|] eqn:Hparse;
      [|right; by left].
    right; right. specialize (Hline record eq_refl eq_refl).
    destruct (createErrorSignature_value ToString record) as [recordSig|]
      eqn:Hsig; [|done].
    by exists record, recordSig.
Qed.

Section CaseMappingOfQueries.

Hypothesis toLowerCase_blank :
  ∀ s, forallb isWhiteSpace (toLowerCase s) = forallb isWhiteSpace s.

(** A query that has none of [errorType], [errorMessage] and [testName]
    (each absent or the empty string) has the empty signature.  A query
    whose signature is blank never finds a solution, a record equal to
    the query included: whenever its lookup returns, it returns
    no-match; and it does return when no line of the log holds a value
    whose signature throws. *)
Theorem lookupSolution_empty_query (errorInfo : ErrorInfo)
    (jsonlLines : list jsstring) :
  (present (errorType errorInfo) = [] →
   present (errorMessage errorInfo) = [] →
   present (testName errorInfo) = [] →
   createErrorSignature errorInfo = [])
  ∧ (forallb isWhiteSpace (createErrorSignature errorInfo) = true →
     (∀ result,
        lookupSolution toLowerCase JSON_parse ToString errorInfo jsonlLines
        = Normal result →
        result = {| found := false; found_solution := None |})
     ∧ (Forall (fun line =>
                  ∀ record,
                    isEmpty (trim line) = false →
                    JSON_parse (trim line) = Some record →
                    createErrorSignature_value ToString record ≠ Throw)
               jsonlLines →
        lookupSolution toLowerCase JSON_parse ToString errorInfo jsonlLines
        = Normal {| found := false; found_solution := None |})).
Proof.
  split.
  - intros Hty Hmsg Hname. rewrite createErrorSignature_parts.
    by rewrite Hty, Hmsg, Hname.
  - intros Hb. apply lookupLoop_no_word.
    apply (proj2 (words_empty_iff toLowerCase _)).
    apply (proj2 (tokens_nil_iff toLowerCase _)).
    by rewrite toLowerCase_blank.
Qed.

End CaseMappingOfQueries.

(** *** Signatures *)

Lemma replaceDigits_go_digit_free b r (s : jsstring) :
  Forall (fun c => isDigit c = false) r →
  Forall (fun c => isDigit c = false) (replaceDigits_go b r s).
Proof.
  intros Hr. revert b. induction s as [|c s IH]; intros b; simpl.
  - constructor.
  - destruct (isDigit c) eqn:Hc.
    + destruct b; [apply IH|]. apply Forall_app. split; [done|apply IH].
    + constructor; [done|apply IH].
Qed.

Lemma replaceDigits_go_nonempty b r (c : N) (s : jsstring) :
  r ≠ [] → b = false → replaceDigits_go b r (c :: s) ≠ [].
Proof.
  intros Hr ->. simpl. destruct (isDigit c); [|done].
  destruct r; [done|]. done.
Qed.

Lemma join_nonempty sep (x : jsstring) xs :
  x ≠ [] → join sep (x :: xs) ≠ [].
Proof.
  intros Hx. destruct xs as [|y xs]; [done|].
  rewrite join_cons2. destruct x; [done|]. done.
Qed.

Lemma placeholder_digit_free :
  Forall (fun c => isDigit c = false) placeholder.
Proof. repeat constructor. Qed.

(** The signature is empty exactly when the record has none of the
    three fields; the message enters it without any digit, on at most
    120 code units, and normalising it again changes nothing; the
    signature is at most 126 code units longer than the type and the
    test name together. *)
Theorem signature_shape (errorInfo : ErrorInfo) :
  (createErrorSignature errorInfo = []
   ↔ present (errorType errorInfo) = []
     ∧ present (errorMessage errorInfo) = []
     ∧ present (testName errorInfo) = [])
  ∧ (∀ m : jsstring,
       Forall (fun c => isDigit c = false)
              (take 120 (replaceDigits placeholder m))
       ∧ (length (take 120 (replaceDigits placeholder m)) ≤ 120)%nat
       ∧ replaceDigits placeholder (take 120 (replaceDigits placeholder m))
         = take 120 (replaceDigits placeholder m))
  ∧ (length (createErrorSignature errorInfo)
     ≤ length (default [] (errorType errorInfo)) + 120
       + length (default [] (testName errorInfo)) + 6)%nat.
Proof.
  assert (∀ m : jsstring,
            Forall (fun c => isDigit c = false)
                   (take 120 (replaceDigits placeholder m))) as Hfree.
  { intros m. apply Forall_take, replaceDigits_go_digit_free,
      placeholder_digit_free. }
  assert (∀ m : jsstring,
            (length (take 120 (replaceDigits placeholder m)) ≤ 120)%nat)
    as Hlen.
  { intros m. rewrite length_take. lia. }
  split; [|split].
  - rewrite createErrorSignature_parts.
    destruct (errorType errorInfo) as [[|c1 s1]|],
             (errorMessage errorInfo) as [[|c2 s2]|],
             (testName errorInfo) as [[|c3 s3]|];
      cbn [present app map];
      try (split; [done|by intros (? & ? & ?)]);
      try (split; [|by intros (? & ? & ?)]; intros H; exfalso;
           revert H; apply join_nonempty; done).
    all: split; [|by intros (? & ? & ?)]; intros H; exfalso; revert H;
      apply join_nonempty;
      destruct (take 120 (replaceDigits placeholder (c2 :: s2))) eqn:Ht;
      [|done];
      apply (f_equal length) in Ht; rewrite length_take in Ht;
      pose proof (replaceDigits_go_nonempty false placeholder c2 s2) as Hne;
      unfold replaceDigits in Ht;
      destruct (replaceDigits_go false placeholder (c2 :: s2));
      [by apply Hne|simpl in Ht; lia].
  - intros m. repeat split; [apply Hfree|apply Hlen|].
    apply replaceDigits_none, Hfree.
  - rewrite createErrorSignature_parts.
    assert (length separator = 3%nat) as Hsep by reflexivity.
    destruct (errorType errorInfo) as [[|c1 s1]|],
             (errorMessage errorInfo) as [[|c2 s2]|],
             (testName errorInfo) as [[|c3 s3]|];
      cbn [present app map join default from_option id];
      repeat (progress cbn [length] || rewrite length_app);
      rewrite ?Hsep; try pose proof (Hlen (c2 :: s2)); lia.
Qed.

(** *** Recording, then looking up *)

Lemma createErrorSignature_withTimestamp errorInfo ts :
  createErrorSignature (withTimestamp errorInfo ts)
  = createErrorSignature errorInfo.
Proof. reflexivity. Qed.

Section RecordingFacts.

Variable now : jsstring.
Variable JSON_stringify : ErrorInfo -> jsstring.

(** A solution that has been recorded is found again: when the line
    written by [serialiseSolution] is appended to a log and is read
    back as the record it was written from, and the lookup of the same
    error in the log as it was returns, the lookup in the extended log
    returns too and finds a solution as soon as the signature has a
    word; when no older line matches, the solution found is the recorded
    one, stamped with the time of recording; when an older line matches,
    the answer is unchanged. *)
Theorem recorded_solution_is_found (errorInfo : ErrorInfo)
    (jsonlLines : list jsstring) (older : LookupResult Value) :
  isEmpty (trim (serialiseSolution now JSON_stringify errorInfo)) = false →
  JSON_parse (trim (serialiseSolution now JSON_stringify errorInfo))
  = Some (valueOf (withTimestamp errorInfo now)) →
  words toLowerCase (createErrorSignature errorInfo) ≠ ∅ →
  lookupSolution toLowerCase JSON_parse ToString errorInfo jsonlLines
  = Normal older →
  (∃ result,
     lookupSolution toLowerCase JSON_parse ToString errorInfo
       (jsonlLines ++ [serialiseSolution now JSON_stringify errorInfo])
     = Normal result
     ∧ found result = true)
  ∧ (found older = false →
     lookupSolution toLowerCase JSON_parse ToString errorInfo
       (jsonlLines ++ [serialiseSolution now JSON_stringify errorInfo])
     = Normal
         {| found := true;
            found_solution :=
              Some {| sol_rootCause := VString <$> rootCause errorInfo;
                      sol_solution := VString <$> solution errorInfo;
                      sol_prevention := VString <$> prevention errorInfo;
                      sol_lesson := VString <$> lesson errorInfo;
                      sol_timestamp := Some (VString now) |} |})
  ∧ (found older = true →
     lookupSolution toLowerCase JSON_parse ToString errorInfo
       (jsonlLines ++ [serialiseSolution now JSON_stringify errorInfo])
     = Normal older).
Proof.
  intros Hblank Hparse Hword Holder.
  assert (lookupSolution toLowerCase JSON_parse ToString errorInfo
            [serialiseSolution now JSON_stringify errorInfo]
          = Normal
              {| found := true;
                 found_solution :=
                   Some {| sol_rootCause := VString <$> rootCause errorInfo;
                           sol_solution := VString <$> solution errorInfo;
                           sol_prevention := VString <$> prevention errorInfo;
                           sol_lesson := VString <$> lesson errorInfo;
                           sol_timestamp := Some (VString now) |} |})
    as Hone.
  { unfold lookupSolution.
    rewrite (lookupLoop_hit toLowerCase JSON_parse ToString _ _ _
               (valueOf (withTimestamp errorInfo now))
               (createErrorSignature errorInfo)); [done|done|done|..].
    - by rewrite createErrorSignature_value_typed,
        createErrorSignature_withTimestamp.
    - apply matchSignatures_self. split; [done|]. unfold Qle. simpl. lia. }
  unfold lookupSolution in *. rewrite lookupLoop_app, Holder.
  destruct (found older) eqn:Hf.
  - split; [by exists older|]. split; [done|]. done.
  - rewrite Hone. split; [eauto|]. split; done.
Qed.

Lemma join_nth_includes sep (xs : list jsstring) (i : nat) (p x : jsstring) :
  xs !! i = Some (p ++ x) → includes (join sep xs) x = true.
Proof.
  intros Hi. apply (join_includes sep xs p x []).
  rewrite app_nil_r. by apply list_elem_of_lookup_2 in Hi.
Qed.

(** The mistake document loses nothing: every field of the record that
    is present, the stored timestamp apart, occurs in it as it is, and
    so do the first ten characters of the clock's reading; the document
    opens with the title line, whose title is "unknown" only when
    [testName] is absent; the stored timestamp has no influence on it. *)
Theorem mistakeDoc_keeps_fields (errorInfo : ErrorInfo) :
  Forall (fun field =>
            ∀ t, field = Some t →
                 includes (createMistakeDoc now errorInfo) t = true)
         [testName errorInfo; errorType errorInfo; errorMessage errorInfo;
          traceback errorInfo; rootCause errorInfo; whyMissed errorInfo;
          solution errorInfo; prevention errorInfo; lesson errorInfo]
  ∧ includes (createMistakeDoc now errorInfo) (take 10 now) = true
  ∧ (lit "# Mistake Record: " ++ default (lit "unknown") (testName errorInfo)
       ++ lineBreak)
    `prefix_of` createMistakeDoc now errorInfo
  ∧ (∀ ts, createMistakeDoc now (withTimestamp errorInfo ts)
           = createMistakeDoc now errorInfo).
Proof.
  split; [|split; [|split]].
  - repeat (apply Forall_cons; split); [..|apply Forall_nil_2];
      intros t Ht; unfold createMistakeDoc; rewrite Ht.
    + by apply (join_nth_includes _ _ 0 (lit "# Mistake Record: ")).
    + by apply (join_nth_includes _ _ 3 (lit "**Error Type**: ")).
    + by apply (join_nth_includes _ _ 9 []).
    + by apply (join_nth_includes _ _ 12 []).
    + by apply (join_nth_includes _ _ 19 []).
    + by apply (join_nth_includes _ _ 25 []).
    + by apply (join_nth_includes _ _ 31 []).
    + by apply (join_nth_includes _ _ 37 []).
    + by apply (join_nth_includes _ _ 43 []).
  - unfold createMistakeDoc, slice0.
    by apply (join_nth_includes _ _ 2 (lit "**Date**: ")).
  - unfold createMistakeDoc. rewrite join_cons2.
    rewrite <- !app_assoc. do 2 apply prefix_app. apply prefix_app_r.
    done.
  - intros ts. reflexivity.
Qed.

End RecordingFacts.

(** *** Reporting a lookup *)

(** The report of a lookup that returned a result of the declared
    type.  It opens with the lookup line, which shows the query's
    signature.  When the lookup found nothing the four-line notice
    follows; when it found something, the report shows the root cause
    and the solution of a value that a line of the log parses to ("see
    record" for an absent one), the first ten characters of its
    timestamp when it has one that is not empty, and its prevention when
    it has one that is not empty. *)
Theorem formatLookupOutput_of_lookup (errorInfo : ErrorInfo)
    (jsonlLines : list jsstring) (result : LookupResult jsstring) :
  lookupSolution toLowerCase JSON_parse ToString errorInfo jsonlLines
  = Normal (asValues result) →
  (lit "🔍 Reflexion Lookup: " ++ createErrorSignature errorInfo ++ lineBreak)
  `prefix_of` formatLookupOutput errorInfo result
  ∧ (found result = false →
     formatLookupOutput errorInfo result
     = join lineBreak
         [lit "🔍 Reflexion Lookup: " ++ createErrorSignature errorInfo;
          lit "⚠️  No prior record found — investigating root cause...";
          lit "📝 Remember to record the solution once found:";
          lit "   echo '<json>' >> docs/memory/solutions_learned.jsonl"])
  ∧ (found result = true →
     ∃ line record (cause remedy ts pv : option jsstring),
       line ∈ jsonlLines
       ∧ JSON_parse (trim line) = Some record
       ∧ own record (lit "rootCause") = VString <$> cause
       ∧ own record (lit "solution") = VString <$> remedy
       ∧ own record (lit "timestamp") = VString <$> ts
       ∧ own record (lit "prevention") = VString <$> pv
       ∧ formatLookupOutput errorInfo result
         = join lineBreak
             ([lit "🔍 Reflexion Lookup: " ++ createErrorSignature errorInfo;
               lit "✅ Known error found"
               ++ match ts with
                  | Some (c :: t) => lit " (" ++ take 10 (c :: t) ++ lit ")"
                  | _ => []
                  end;
               lit "   Root Cause: " ++ default (lit "see record") cause;
               lit "   Solution: " ++ default (lit "see record") remedy]
              ++ match pv with
                 | Some (c :: p) => [lit "   Prevention: " ++ c :: p]
                 | _ => []
                 end)).
Proof.
  intros Hres. unfold lookupSolution in Hres.
  destruct result as [fd [sol|]].
  2: { split; [|split].
       - unfold formatLookupOutput. cbn [found found_solution].
         assert (∀ b : bool, match b with true | false =>
                   join lineBreak
                     [lit "🔍 Reflexion Lookup: "
                      ++ createErrorSignature errorInfo;
                      lit "⚠️  No prior record found — investigating root cause...";
                      lit "📝 Remember to record the solution once found:";
                      lit "   echo '<json>' >> docs/memory/solutions_learned.jsonl"]
                 end
                 = join lineBreak
                     [lit "🔍 Reflexion Lookup: "
                      ++ createErrorSignature errorInfo;
                      lit "⚠️  No prior record found — investigating root cause...";
                      lit "📝 Remember to record the solution once found:";
                      lit "   echo '<json>' >> docs/memory/solutions_learned.jsonl"])
           as -> by (by intros []).
         rewrite join_cons2, <- !app_assoc. do 2 apply prefix_app.
         apply prefix_app_r. done.
       - intros _. unfold formatLookupOutput. cbn [found found_solution].
         by destruct fd.
       - cbn [found]. intros ->.
         destruct (lookupLoop_cases (createErrorSignature errorInfo)
                     jsonlLines)
           as [Hnone|[(l & r & sg & _ & _ & _ & _ & _ & Hfound)
                     |(l & r & _ & _ & _ & _ & Hthrow)]].
         + rewrite Hnone in Hres. by injection Hres.
         + rewrite Hfound in Hres. by injection Hres.
         + by rewrite Hthrow in Hres. }
  destruct (lookupLoop_cases (createErrorSignature errorInfo) jsonlLines)
    as [Hnone|[(line & record & sg & Hin & _ & Hparse & _ & _ & Hfound)
              |(l & r & _ & _ & _ & _ & Hthrow)]].
  - rewrite Hnone in Hres. by injection Hres.
  - rewrite Hfound in Hres. injection Hres as Hfd Hrc Hso Hpv Hle Hts.
    subst fd. destruct sol as [cause remedy pv le ts].
    cbn [sol_rootCause sol_solution sol_prevention sol_lesson sol_timestamp]
      in *.
    split; [|split; [by intros [=]|]].
    + unfold formatLookupOutput.
      cbn [found found_solution sol_timestamp sol_rootCause sol_solution
           sol_prevention].
      destruct pv as [[|? ?]|]; unfold push;
        cbn [app]; rewrite join_cons2, <- !app_assoc;
        do 2 apply prefix_app; apply prefix_app_r; done.
    + intros _. exists line, record, cause, remedy, ts, pv.
      repeat split; try done.
      unfold formatLookupOutput, slice0, push.
      cbn [found found_solution sol_timestamp sol_rootCause sol_solution
           sol_prevention].
      by destruct pv as [[|? ?]|].
  - by rewrite Hthrow in Hres.
Qed.

End ReflexionMore.

(** ** Session start hook *)

Import SessionStartHook.

Section SessionStartHookFacts.

(** The project type depends on the manifest list only through the
    presence of the two manifest names, so neither the order of the list
    nor repeated or other entries matter: both names give a monorepo,
    one alone gives its language, none gives unknown. *)
Theorem detectProjectType_by_presence (manifestFiles : list jsstring) :
  (detectProjectType manifestFiles = monorepo
   ↔ lit "pyproject.toml" ∈ manifestFiles
     ∧ lit "package.json" ∈ manifestFiles)
  ∧ (detectProjectType manifestFiles = python
     ↔ lit "pyproject.toml" ∈ manifestFiles
       ∧ ¬ lit "package.json" ∈ manifestFiles)
  ∧ (detectProjectType manifestFiles = node
     ↔ ¬ lit "pyproject.toml" ∈ manifestFiles
       ∧ lit "package.json" ∈ manifestFiles)
  ∧ (detectProjectType manifestFiles = unknown
     ↔ ¬ lit "pyproject.toml" ∈ manifestFiles
       ∧ ¬ lit "package.json" ∈ manifestFiles)
  ∧ (∀ others : list jsstring,
       (∀ x, x ∈ manifestFiles ↔ x ∈ others) →
       detectProjectType others = detectProjectType manifestFiles).
Proof.
  unfold detectProjectType, arrayIncludes.
  generalize (lit "pyproject.toml") (lit "package.json"). intros py pk.
  split; [|split; [|split; [|split]]].
  1-4: repeat case_bool_decide; cbn [andb]; split; try done; tauto.
  intros others Hsame.
  rewrite (bool_decide_ext (py ∈ others) (py ∈ manifestFiles))
    by (symmetry; apply Hsame).
  by rewrite (bool_decide_ext (pk ∈ others) (pk ∈ manifestFiles))
    by (symmetry; apply Hsame).
Qed.

Lemma hook_messages_distinct :
  msgScriptPath ≠ msgTimeoutPositive ∧ msgScriptPath ≠ msgTimeoutTooLong
  ∧ msgTimeoutPositive ≠ msgTimeoutTooLong.
Proof.
  repeat split; intros H; apply (f_equal length) in H;
    vm_compute in H; discriminate H.
Qed.

Lemma Number_le_zero (t : Number) :
  Number_le t (Finite 0) = true
  ↔ t = NegInfinity ∨ ∃ q, t = Finite q ∧ (q <= 0)%Q.
Proof.
  destruct t as [q| | |]; cbn [Number_le].
  - rewrite Qle_bool_iff. split; [eauto|].
    by intros [?|(q' & [= <-] & ?)].
  - split; [done|]. by intros [?|(? & ? & _)].
  - split; [by left|done].
  - split; [done|]. by intros [?|(? & ? & _)].
Qed.

Lemma Number_gt_limit (t : Number) :
  Number_gt t (Finite 300) = true
  ↔ t = PosInfinity ∨ ∃ q, t = Finite q ∧ (300 < q)%Q.
Proof.
  destruct t as [q| | |]; cbn [Number_gt].
  - rewrite negb_true_iff, <- not_true_iff_false, Qle_bool_iff. split.
    + intros H. right. exists q. split; [done|]. by apply Qnot_le_lt.
    + intros [?|(q' & [= <-] & H)]; [done|]. by apply Qlt_not_le.
  - split; [by left|done].
  - split; [done|]. by intros [?|(? & ? & _)].
  - split; [done|]. by intros [?|(? & ? & _)].
Qed.

(** A timeout draws no message exactly when it is NaN or lies above 0
    and at most at 300. *)
Lemma timeout_accepted (t : Number) :
  Number_le t (Finite 0) = false ∧ Number_gt t (Finite 300) = false
  ↔ t = NaN ∨ ∃ q, t = Finite q ∧ (0 < q)%Q ∧ (q <= 300)%Q.
Proof.
  destruct t as [q| | |]; cbn [Number_le Number_gt].
  - rewrite negb_false_iff, Qle_bool_iff, <- not_true_iff_false,
      Qle_bool_iff. split.
    + intros [H0 H300]. right. exists q. split; [done|].
      split; [by apply Qnot_le_lt|done].
    + intros [?|(q' & [= <-] & H0 & H300)]; [done|].
      split; [by apply Qlt_not_le|done].
  - split; [by intros [_ ?]|]. by intros [?|(? & ? & _)].
  - split; [by intros [? _]|]. by intros [?|(? & ? & _)].
  - split; [by left|done].
Qed.

(** The configuration is valid exactly when the script path is not
    blank and the timeout is NaN or lies above 0 and at most at 300:
    NaN fails both comparisons, so it draws no message.  Each of the
    three messages is reported exactly under its condition, in the fixed
    order, and the two timeout messages never come together. *)
Theorem validateHookConfig_conditions (config : HookConfig) :
  (validateHookConfig config = []
   ↔ isEmpty (trim (scriptPath config)) = false
     ∧ (timeoutSeconds config = NaN
        ∨ ∃ q, timeoutSeconds config = Finite q
               ∧ (0 < q)%Q ∧ (q <= 300)%Q))
  ∧ (msgScriptPath ∈ validateHookConfig config
     ↔ isEmpty (trim (scriptPath config)) = true)
  ∧ (msgTimeoutPositive ∈ validateHookConfig config
     ↔ timeoutSeconds config = NegInfinity
       ∨ ∃ q, timeoutSeconds config = Finite q ∧ (q <= 0)%Q)
  ∧ (msgTimeoutTooLong ∈ validateHookConfig config
     ↔ timeoutSeconds config = PosInfinity
       ∨ ∃ q, timeoutSeconds config = Finite q ∧ (300 < q)%Q)
  ∧ sublist (validateHookConfig config)
            [msgScriptPath; msgTimeoutPositive; msgTimeoutTooLong]
  ∧ (length (validateHookConfig config) ≤ 2)%nat.
Proof.
  pose proof (timeout_accepted (timeoutSeconds config)) as HA.
  pose proof (Number_le_zero (timeoutSeconds config)) as HL.
  pose proof (Number_gt_limit (timeoutSeconds config)) as HG.
  assert (Number_le (timeoutSeconds config) (Finite 0) = true →
          Number_gt (timeoutSeconds config) (Finite 300) = false) as Hexcl.
  { destruct (timeoutSeconds config) as [q| | |]; cbn [Number_le Number_gt];
      try done.
    rewrite Qle_bool_iff, negb_false_iff, Qle_bool_iff. intros H.
    eapply Qle_trans; [exact H|]. unfold Qle. simpl. lia. }
  revert HA HL HG.
  generalize (timeoutSeconds config = NaN
              ∨ ∃ q, timeoutSeconds config = Finite q
                     ∧ (0 < q)%Q ∧ (q <= 300)%Q).
  generalize (timeoutSeconds config = NegInfinity
              ∨ ∃ q, timeoutSeconds config = Finite q ∧ (q <= 0)%Q).
  generalize (timeoutSeconds config = PosInfinity
              ∨ ∃ q, timeoutSeconds config = Finite q ∧ (300 < q)%Q).
  intros PG PL PA HA HL HG.
  destruct hook_messages_distinct as (D1 & D2 & D3).
  unfold validateHookConfig, push.
  generalize dependent msgScriptPath. generalize dependent msgTimeoutPositive.
  generalize dependent msgTimeoutTooLong. intros m3 m2 D3 m1 D1 D2.
  assert (isEmpty (scriptPath config) || isEmpty (trim (scriptPath config))
          = isEmpty (trim (scriptPath config))) as ->.
  { by destruct (scriptPath config). }
  destruct (isEmpty (trim (scriptPath config))),
           (Number_le (timeoutSeconds config) (Finite 0)) eqn:E0,
           (Number_gt (timeoutSeconds config) (Finite 300)) eqn:E300;
    cbn [app length];
    rewrite ?elem_of_cons, ?elem_of_nil;
    try (by specialize (Hexcl eq_refl));
    repeat split; try done; try lia; try tauto;
    try (intros; intuition congruence);
    try solve [repeat first [apply sublist_nil_l | apply sublist_skip
                            | apply sublist_cons]].
Qed.

Lemma validateHookConfig_nil (config : HookConfig) :
  validateHookConfig config = [] →
  isEmpty (trim (scriptPath config)) = false
  ∧ (timeoutSeconds config = NaN
     ∨ ∃ q, timeoutSeconds config = Finite q ∧ (0 < q)%Q ∧ (q <= 300)%Q).
Proof.
  intros Hnil.
  cut (isEmpty (trim (scriptPath config)) = false
       ∧ Number_le (timeoutSeconds config) (Finite 0) = false
       ∧ Number_gt (timeoutSeconds config) (Finite 300) = false).
  { intros [Hpath Ht]. split; [exact Hpath|]. by apply timeout_accepted. }
  revert Hnil. unfold validateHookConfig, push.
  assert (isEmpty (scriptPath config) || isEmpty (trim (scriptPath config))
          = isEmpty (trim (scriptPath config))) as ->.
  { by destruct (scriptPath config). }
  generalize msgScriptPath msgTimeoutPositive msgTimeoutTooLong.
  intros m1 m2 m3.
  by destruct (isEmpty (trim (scriptPath config))),
              (Number_le (timeoutSeconds config) (Finite 0)),
              (Number_gt (timeoutSeconds config) (Finite 300)).
Qed.

(** The settings hold one SessionStart group with one hook, a command
    hook that runs the script path under the configured timeout.  They
    depend on the configuration through these two fields only: the
    project type, the health-check choice and the extra commands have no
    influence.  The settings of a configuration that validates carry a
    command that is not blank and a timeout that is NaN or lies above 0
    and at most at 300. *)
Theorem buildClaudeSettings_single_hook (config : HookConfig) :
  (∃ h, SessionStart (buildClaudeSettings config) = [{| hooks := [h] |}]
        ∧ type h = lit "command"
        ∧ command h = scriptPath config
        ∧ timeout h = timeoutSeconds config)
  ∧ (∀ other,
       buildClaudeSettings other = buildClaudeSettings config
       ↔ scriptPath other = scriptPath config
         ∧ timeoutSeconds other = timeoutSeconds config)
  ∧ (validateHookConfig config = [] →
     Forall (fun g =>
               Forall (fun h =>
                         isEmpty (trim (command h)) = false
                         ∧ (timeout h = NaN
                            ∨ ∃ q, timeout h = Finite q
                                   ∧ (0 < q)%Q ∧ (q <= 300)%Q))
                      (hooks g))
            (SessionStart (buildClaudeSettings config))).
Proof.
  split; [|split].
  - eexists. by repeat split.
  - intros other. unfold buildClaudeSettings. split.
    + by intros [= -> ->].
    + by intros [-> ->].
  - intros Hvalid. apply validateHookConfig_nil in Hvalid.
    unfold buildClaudeSettings. cbn [SessionStart].
    apply Forall_cons. split; [|apply Forall_nil_2].
    cbn [hooks]. apply Forall_cons. split; [exact Hvalid|apply Forall_nil_2].
Qed.

(** The recommended timeout is 30 seconds, 60 for a monorepo, plus 30
    with a health check, hence between 30 and 90; a configuration that
    uses it, whatever the project type and the health-check choice, is
    valid as soon as its script path is not blank. *)
Theorem recommendTimeout_is_valid (ty : ProjectType) (health : bool) :
  (30 <= recommendTimeout ty health)%Q
  ∧ (recommendTimeout ty health <= 90)%Q
  ∧ (recommendTimeout ty true == (recommendTimeout ty false + 30))%Q
  ∧ (recommendTimeout monorepo health
     == (recommendTimeout python health + 30))%Q
  ∧ (∀ config,
       timeoutSeconds config = recommendTimeout ty health →
       isEmpty (trim (scriptPath config)) = false →
       validateHookConfig config = []).
Proof.
  split; [by destruct ty, health|]. split; [by destruct ty, health|].
  split; [by destruct ty|]. split; [by destruct health|].
  intros config Ht Hpath. unfold validateHookConfig. rewrite Ht.
  assert (isEmpty (scriptPath config) || isEmpty (trim (scriptPath config))
          = false) as ->.
  { destruct (scriptPath config); [done|]. simpl. exact Hpath. }
  by destruct ty, health.
Qed.

(** The lines of the script that do not depend on the extra commands. *)
Lemma scriptLines_extra config :
  ∃ body,
    scriptLines (withExtraCommands config None) = body ++ [echoReady; []]
    ∧ (∃ rest, body = scriptHeader ++ rest)
    ∧ Forall (fun x => Forall (fun c => c ≠ 0x0A) x) body
    ∧ scriptLines config
      = body
        ++ match extraCommands config with
           | Some (c :: cs) => [extraMarker] ++ (c :: cs) ++ [[]]
           | _ => []
           end
        ++ [echoReady; []].
Proof.
  destruct config as [p t ty h e]. unfold scriptLines, push.
  cbn [withExtraCommands SessionStartHook.scriptPath timeoutSeconds
       projectType runHealthCheck extraCommands].
  set (install := match ty with
                  | python => scriptHeader ++ installPython
                  | node => scriptHeader ++ installNode
                  | monorepo => scriptHeader ++ installMonorepo
                  | unknown => scriptHeader ++ installUnknown
                  end).
  set (body := if h then _ else _).
  exists body. split; [by rewrite <- app_assoc|]. split; [|split].
  - subst body install.
    destruct ty, h; eexists; rewrite <- ?app_assoc; reflexivity.
  - subst body install.
    destruct ty, h; apply Forall_forall; intros x Hx;
      apply no_newline_check; revert x Hx; apply Forall_forall;
      vm_compute; repeat constructor.
  - by destruct e as [[|c cs]|]; rewrite <- ?app_assoc.
Qed.

(** The script always opens with the interpreter line and the strict
    mode line and closes with the ready message and a line break.  The
    extra commands, when there are any, come verbatim and in their
    order after everything else, announced by a comment and followed by
    an empty line, right before the ready message; an empty list of
    extra commands leaves the script as without the field.  When no
    extra command holds a line break, the script has one line per entry
    of its line array. *)
Theorem initScript_frame (config : HookConfig) :
  (lit "#!/usr/bin/env bash" ++ [0x0A] ++ lit "set -euo pipefail" ++ [0x0A])
  `prefix_of` generateInitScript config
  ∧ (echoReady ++ [0x0A]) `suffix_of` generateInitScript config
  ∧ (∃ body,
       scriptLines (withExtraCommands config None) = body ++ [echoReady; []]
       ∧ ∀ c cs,
           extraCommands config = Some (c :: cs) →
           scriptLines config
           = body ++ [extraMarker] ++ (c :: cs) ++ [[]; echoReady; []])
  ∧ (extraCommands config = Some [] →
     generateInitScript config
     = generateInitScript (withExtraCommands config None))
  ∧ (Forall (fun x => Forall (fun c => c ≠ 0x0A) x)
            (default [] (extraCommands config)) →
     lines (generateInitScript config) = scriptLines config).
Proof.
  destruct (scriptLines_extra config)
    as (body & Hbase & [rest Hhead] & Hnl & Hall).
  assert (body ≠ []) as Hne by (by rewrite Hhead).
  split; [|split; [|split; [|split]]].
  - unfold generateInitScript. rewrite Hall, Hhead.
    unfold scriptHeader. rewrite <- !app_assoc. cbn [app].
    rewrite 2!join_cons2.
    eexists. rewrite <- !app_assoc. reflexivity.
  - unfold generateInitScript. rewrite Hall.
    set (extra := match extraCommands config with
                  | Some (c :: cs) => _
                  | _ => []
                  end).
    replace (body ++ extra ++ [echoReady; []])
      with ((body ++ extra ++ [echoReady]) ++ [[]])
      by (by rewrite <- !app_assoc).
    rewrite join_snoc by (by destruct body).
    replace (body ++ extra ++ [echoReady])
      with ((body ++ extra) ++ [echoReady]) by (by rewrite <- !app_assoc).
    rewrite join_snoc by (by destruct body).
    rewrite app_nil_r, <- !app_assoc.
    generalize echoReady (join [0x0A] (body ++ extra)). intros r j.
    exists (j ++ [0x0A]). by rewrite <- !app_assoc.
  - exists body. split; [done|]. intros c cs He. rewrite Hall, He.
    by rewrite <- !app_assoc.
  - intros He. unfold generateInitScript. by rewrite Hall, He, Hbase.
  - intros Hextra. unfold generateInitScript. apply lines_join.
    { rewrite Hall. by destruct body. }
    rewrite Hall. rewrite !Forall_app. split; [done|]. split.
    + destruct (extraCommands config) as [[|c cs]|];
        cbn [default from_option id] in Hextra; try by constructor.
      rewrite !Forall_app. split; [|split; [done|by repeat constructor]].
      apply Forall_cons. split; [|by constructor].
      apply no_newline_check. by vm_compute.
    + apply Forall_cons. split; [apply no_newline_check; by vm_compute|].
      by repeat constructor.
Qed.

(** In a script without extra commands the health-check message is
    there exactly when a health check is asked for, the pytest line
    exactly when it is asked for in a Python project or a monorepo, and
    the npm test line exactly when it is asked for in a Node project or
    a monorepo; a project of unknown type gets the message and runs no
    test. *)
Theorem initScript_health_check (config : HookConfig) :
  extraCommands config = None →
  (echoHealthCheck ∈ scriptLines config ↔ runHealthCheck config = true)
  ∧ (pytestLine ∈ scriptLines config
     ↔ runHealthCheck config = true
       ∧ (projectType config = python ∨ projectType config = monorepo))
  ∧ (npmTestLine ∈ scriptLines config
     ↔ runHealthCheck config = true
       ∧ (projectType config = node ∨ projectType config = monorepo)).
Proof.
  destruct config as [p t ty h e].
  cbn [extraCommands projectType runHealthCheck]. intros ->.
  assert (∀ (x : jsstring) (l : list jsstring),
            bool_decide (x ∈ l) = true → x ∈ l) as Hyes.
  { intros x l. apply bool_decide_eq_true_1. }
  assert (∀ (x : jsstring) (l : list jsstring),
            bool_decide (x ∈ l) = false → x ∈ l → False) as Hno.
  { intros x l H. exact (bool_decide_eq_false_1 _ H). }
  destruct ty, h; (split; [|split]); split;
    try (intros _; apply Hyes; by vm_compute);
    try (intros H; exfalso; revert H; apply Hno; by vm_compute);
    try (intros _; split; [done|]; by eauto);
    try (by intros [? [?|?]]); try (by intros [? ?]); try done.
Qed.

End SessionStartHookFacts.

(** ** Instances of the conditional properties *)

(** Instance of [uncertainty_flag]: the hesitant description raises the
    flag, which quotes the phrase found; the claim without description
    raises none. *)
Lemma uncertainty_flag_witness :
  (∀ s, forallb isWhiteSpace (asciiLower s) = forallb isWhiteSpace s)
  ∧ uncertaintyFlag [lit "should work"]
    ∈ detectHallucinations asciiLower hesitantClaim
  ∧ ¬ uncertaintyFlag [lit "should work"]
      ∈ detectHallucinations asciiLower passingClaim.
Proof.
  split; [exact asciiLower_blank|]. split.
  - assert (∃ w, w ∈ UNCERTAINTY_WORDS
                 ∧ includes (asciiLower
                               (default [] (description hesitantClaim))) w
                   = true) as Hex.
    { exists (lit "should work"). split; [|by vm_compute].
      apply (bool_decide_eq_true_1 (lit "should work" ∈ UNCERTAINTY_WORDS)).
      by vm_compute. }
    exact (proj2 (proj1 (uncertainty_flag asciiLower asciiLower_blank
                           hesitantClaim)) Hex).
  - apply (proj2 (uncertainty_flag asciiLower asciiLower_blank passingClaim)).
    reflexivity.
Defined.

(** Instance of [lookupSolution_empty_query]: a query without any of the
    three fields finds nothing in a log that holds a record. *)
Lemma lookupSolution_empty_query_witness :
  (∀ s, forallb isWhiteSpace (asciiLower s) = forallb isWhiteSpace s)
  ∧ createErrorSignature (errorOf None (Some []) None) = []
  ∧ lookupSolution asciiLower sampleParse plainToString
      (errorOf None (Some []) None) [sampleLine]
    = Normal {| found := false; found_solution := None |}.
Proof.
  split; [exact asciiLower_blank|].
  destruct (lookupSolution_empty_query asciiLower sampleParse plainToString
              asciiLower_blank (errorOf None (Some []) None) [sampleLine])
    as [Hsig Hblank].
  split; [by apply Hsig|].
  apply (proj2 (Hblank eq_refl)).
  apply Forall_cons. split; [|apply Forall_nil_2].
  intros record _ Hparse.
  assert (sampleParse (trim sampleLine) = Some (valueOf sampleRecord)) as Hs.
  { by vm_compute. }
  rewrite Hs in Hparse. injection Hparse as <-.
  by rewrite createErrorSignature_value_typed.
Defined.

(** The empty query on a log that holds [null]: the lookup throws. *)
Example empty_query_on_null_line :
  lookupSolution asciiLower sampleParse plainToString
    (errorOf None None None) [nullLine]
  = Throw.
Proof. by vm_compute. Qed.

(** Instance of [recorded_solution_is_found]: the sample record, written
    at the sample clock reading after a line that does not parse, is
    found with its timestamp. *)
Lemma recorded_solution_is_found_witness :
  stampedParse (trim (serialiseSolution sampleNow sampleStringify sampleRecord))
  = Some (valueOf (withTimestamp sampleRecord sampleNow))
  ∧ lookupSolution asciiLower stampedParse plainToString sampleRecord
      [garbageLine]
    = Normal {| found := false; found_solution := None |}
  ∧ lookupSolution asciiLower stampedParse plainToString sampleRecord
      ([garbageLine]
       ++ [serialiseSolution sampleNow sampleStringify sampleRecord])
    = Normal
        {| found := true;
           found_solution :=
             Some {| sol_rootCause := VString <$> rootCause sampleRecord;
                     sol_solution := VString <$> solution sampleRecord;
                     sol_prevention := VString <$> prevention sampleRecord;
                     sol_lesson := VString <$> lesson sampleRecord;
                     sol_timestamp := Some (VString sampleNow) |} |}.
Proof.
  assert (stampedParse
            (trim (serialiseSolution sampleNow sampleStringify sampleRecord))
          = Some (valueOf (withTimestamp sampleRecord sampleNow))) as Hparse.
  { by vm_compute. }
  assert (lookupSolution asciiLower stampedParse plainToString sampleRecord
            [garbageLine]
          = Normal {| found := false; found_solution := None |}) as Holder.
  { by vm_compute. }
  split; [exact Hparse|]. split; [exact Holder|].
  apply (recorded_solution_is_found asciiLower stampedParse plainToString
           sampleNow sampleStringify sampleRecord [garbageLine]
           {| found := false; found_solution := None |}).
  - by vm_compute.
  - exact Hparse.
  - intros H. apply (proj1 (words_empty_iff asciiLower _)) in H.
    revert H. by vm_compute.
  - exact Holder.
  - reflexivity.
Defined.

(** Instance of [formatLookupOutput_of_lookup]: the lookup of the
    sample query in a log whose second line holds the sample record,
    and the head of its report. *)
Lemma formatLookupOutput_of_lookup_witness :
  lookupSolution asciiLower sampleParse plainToString sampleQuery
    [garbageLine; sampleLine]
  = Normal
      (asValues
         {| found := true;
            found_solution :=
              Some {| sol_rootCause := Some (lit "off by one");
                      sol_solution := Some (lit "fix the bound");
                      sol_prevention := None;
                      sol_lesson := None;
                      sol_timestamp := None |} |})
  ∧ (lit "🔍 Reflexion Lookup: " ++ createErrorSignature sampleQuery
     ++ lineBreak)
    `prefix_of`
      formatLookupOutput sampleQuery
        {| found := true;
           found_solution :=
             Some {| sol_rootCause := Some (lit "off by one");
                     sol_solution := Some (lit "fix the bound");
                     sol_prevention := None;
                     sol_lesson := None;
                     sol_timestamp := None |} |}.
Proof.
  assert (lookupSolution asciiLower sampleParse plainToString sampleQuery
            [garbageLine; sampleLine]
          = Normal
              (asValues
                 {| found := true;
                    found_solution :=
                      Some {| sol_rootCause := Some (lit "off by one");
                              sol_solution := Some (lit "fix the bound");
                              sol_prevention := None;
                              sol_lesson := None;
                              sol_timestamp := None |} |})) as Hres.
  { by vm_compute. }
  split; [exact Hres|].
  exact (proj1 (formatLookupOutput_of_lookup asciiLower sampleParse
                  plainToString sampleQuery [garbageLine; sampleLine] _
                  Hres)).
Defined.

(** The report of that lookup, line by line. *)
Example scenario_known_error_report :
  formatLookupOutput sampleQuery
    {| found := true;
       found_solution :=
         Some {| sol_rootCause := Some (lit "off by one");
                 sol_solution := Some (lit "fix the bound");
                 sol_prevention := None;
                 sol_lesson := None;
                 sol_timestamp := None |} |}
  = join lineBreak
      [lit "🔍 Reflexion Lookup: "
       ++ lit "AssertionError | Expected N, got N | test_calc";
       lit "✅ Known error found";
       lit "   Root Cause: off by one";
       lit "   Solution: fix the bound"].
Proof. by vm_compute. Qed.

(** Instance of [initScript_health_check]: the configuration suggested
    for a Python project with a health check runs pytest and not npm. *)
Lemma initScript_health_check_witness :
  extraCommands
    (suggestedConfig (lit ".claude/init.sh") [lit "pyproject.toml"] true None)
  = None
  ∧ pytestLine
    ∈ scriptLines
        (suggestedConfig (lit ".claude/init.sh") [lit "pyproject.toml"] true
           None)
  ∧ ¬ npmTestLine
      ∈ scriptLines
          (suggestedConfig (lit ".claude/init.sh") [lit "pyproject.toml"] true
             None).
Proof.
  split; [reflexivity|].
  destruct (initScript_health_check
              (suggestedConfig (lit ".claude/init.sh") [lit "pyproject.toml"]
                 true None) eq_refl) as (_ & Hpy & Hnpm).
  split.
  - apply Hpy. split; [reflexivity|]. left. by vm_compute.
  - intros Hin. apply Hnpm in Hin as [_ [H|H]]; vm_compute in H;
      discriminate H.
Defined.

(** The bounds of [issues_bounded] are reached. *)
Example issues_bound_reached :
  length (detectHallucinations asciiLower worstClaim) = 4%nat
  ∧ length (issues (selfCheck asciiLower worstClaim)) = 8%nat.
Proof. split; by vm_compute. Qed.

(** A timeout that is NaN draws no message. *)
Example scenario_nan_timeout_validates :
  validateHookConfig
    {| scriptPath := lit ".claude/init.sh"; timeoutSeconds := NaN;
       projectType := python; runHealthCheck := false;
       extraCommands := None |}
  = [].
Proof. by vm_compute. Qed.

(** A valid suggested configuration and its script, line by line. *)
Example scenario_suggested_python_hook :
  validateHookConfig
    (suggestedConfig (lit ".claude/init.sh") [lit "pyproject.toml"] true None)
  = []
  ∧ timeoutSeconds
      (suggestedConfig (lit ".claude/init.sh") [lit "pyproject.toml"] true
         None)
    = 60%Q
  ∧ length (scriptLines
              (suggestedConfig (lit ".claude/init.sh") [lit "pyproject.toml"]
                 true None))
    = 25%nat.
Proof. repeat split; by vm_compute. Qed.
